(** * ERC-7821 [execute]: a shallow embedding of
      [src/experimental/erc7821/actions/execute.ts]

    The file embeds the two functions of [execute.ts], [encodeCalls] and
    [execute], and proves properties of the call-batch encoder, of the
    dispatcher (address resolution, mode choice, capability gate) and of the
    error resolver (the [catch] block of [execute]).

    Conventions.
    - A [Hex] or an [Address] is the JavaScript string itself (["0x..."]).
    - An optional property ([x?: T | undefined]) is an [option].
    - A function that may throw returns a [result]; the thrown value is kept.
    - The collaborators that [execute.ts] imports (ABI coders, the capability
      query, the transaction submitter, the constants table) are the fields of
      the class [Collaborators]; every theorem holds for all of them.
    - The remote world that [execute] acts on is a [World]: the capability
      cache and the log of the observable steps. *)

From Stdlib Require Import Ascii String HexString ZArith Bool List.
From stdpp Require Import base option list strings gmap.

Local Open Scope string_scope.
Local Open Scope list_scope.
Local Set Warnings "-register-all".

(** ** JavaScript values *)

Definition Hex := string.
Definition Address := string.

(** The values that travel as [args] and as ABI-encoder inputs. *)
Inductive JsValue : Type :=
| JsString (s : string)
| JsBigInt (z : Z)
| JsBool (b : bool)
| JsArray (items : list JsValue)
| JsObject (fields : list (string * JsValue)).

(** Truthiness of a string: only [""] is falsy. *)
Definition js_truthy (s : string) : bool := negb (String.eqb s "").

(** [x ? f(x) : ...] on an optional string: the string when it is defined
    and truthy. *)
Definition when_truthy (o : option string) : option string :=
  match o with
  | Some s => if js_truthy s then Some s else None
  | None => None
  end.

(** [Boolean(o)] for [o] an object: every object is truthy. *)
Definition Boolean_object {A : Type} (_ : A) : bool := true.

(** The template type [`0x${string}`] of [Hex]. *)
Definition is_Hex (s : string) : bool := String.prefix "0x" s.

(** Zero bytes, as a [Hex]. *)
Definition empty_bytes : Hex := "0x".

(** The first four bytes of a hex string, with the ["0x"]: the error
    signature of revert data. *)
Definition leading_signature (d : Hex) : Hex := String.substring 0 10 d.

(** ** Results and thrown values *)

Inductive result (E A : Type) : Type :=
| Ok (a : A)
| Throw (e : E).
Arguments Ok {E A} a.
Arguments Throw {E A} e.

Definition rbind {E A B} (r : result E A) (k : A -> result E B) : result E B :=
  match r with
  | Ok a => k a
  | Throw e => Throw e
  end.

(** [Array.prototype.map] with a callback that may throw: the first throw,
    in index order, ends the map. *)
Fixpoint map_result {E A B} (f : A -> result E B) (l : list A) : result E (list B) :=
  match l with
  | [] => Ok []
  | x :: rest =>
      rbind (f x) (fun y => rbind (map_result f rest) (fun ys => Ok (y :: ys)))
  end.

(** ** Errors

    An error object, with the part of it that [execute] reads: whether it has
    a [data] property (and its value) and its [cause]. *)
Inductive DataProperty : Type :=
| NoData                 (* ['data' in e] is false *)
| DataUndefined          (* the property is there, its value is [undefined] *)
| DataValue (d : Hex).

Inductive BaseError : Type :=
| MkBaseError (name : string) (data : DataProperty) (cause : option BaseError).

Definition err_name (e : BaseError) : string :=
  match e with MkBaseError n _ _ => n end.
Definition err_data (e : BaseError) : DataProperty :=
  match e with MkBaseError _ d _ => d end.
Definition err_cause (e : BaseError) : option BaseError :=
  match e with MkBaseError _ _ c => c end.

(** ['data' in e] *)
Definition has_data_property (e : BaseError) : bool :=
  match err_data e with
  | NoData => false
  | _ => true
  end.

(** [error?.data] *)
Definition data_of (error : option BaseError) : option Hex :=
  match error with
  | Some (MkBaseError _ (DataValue d) _) => Some d
  | _ => None
  end.

(** Modelled from the spec: [BaseError.walk] of [errors/base.js], which is not
    among the sources. Sections 4.4 and 9: walk the cause chain until the
    predicate matches or the chain ends; the result is the first error that
    matches, or nothing. *)
Fixpoint walk (fn : BaseError -> bool) (err : BaseError) : option BaseError :=
  match err with
  | MkBaseError _ _ cause =>
      if fn err then Some err
      else match cause with
           | Some c => walk fn c
           | None => None
           end
  end.

(** The cause chain of an error, the error itself first. *)
Fixpoint cause_chain (err : BaseError) : list BaseError :=
  match err with
  | MkBaseError _ _ cause =>
      err :: match cause with
             | Some c => cause_chain c
             | None => []
             end
  end.

(** ** Interfaces and calls *)

Record AbiItem : Type := {
  item_type : string;          (* "function", "error", ... *)
  item_name : string;
  item_inputs : list string    (* the types of the inputs *)
}.

Definition Abi := list AbiItem.

(** [Call] of [types/calls.js], cast from [unknown]: every property but [to]
    may be missing. An [abi] is an array, so it is truthy whenever defined. *)
Record Call : Type := {
  call_to : Address;
  call_abi : option Abi;
  call_functionName : option string;
  call_args : option (list JsValue);
  call_data : option Hex;
  call_value : option Z
}.

(** The object literal [{ data, value, target }] built for each call. *)
Record EncodedCall : Type := {
  entry_data : Hex;
  entry_value : Z;
  entry_target : Address
}.

Definition js_of_entry (e : EncodedCall) : JsValue :=
  JsObject [("data", JsString (entry_data e));
            ("value", JsBigInt (entry_value e));
            ("target", JsString (entry_target e))].

(** What [decodeErrorResult] returns: an object. *)
Record DecodedError : Type := {
  decoded_abiItem : AbiItem;
  decoded_errorName : string;
  decoded_args : option (list JsValue)
}.

Record Authorization : Type := {
  contractAddress : option Address;
  auth_chainId : Z;
  auth_nonce : Z
}.

Record Client : Type := { uid : string }.

Record ExecuteParameters : Type := {
  authorizationList : option (list Authorization);
  account : option Address;
  gas : option Z;
  gasPrice : option Z;
  maxFeePerGas : option Z;
  maxPriorityFeePerGas : option Z;
  address : Address;
  calls : list Call;
  opData : option Hex
}.

(** The argument of [sendTransaction]: [{ ...parameters, to, data }]. *)
Record TransactionRequest : Type := {
  tx_parameters : ExecuteParameters;
  tx_to : Address;
  tx_data : Hex
}.

(** ** Collaborators

    What [execute.ts] imports and does not define. *)
Class Collaborators : Type := {
  (* ../constants.js *)
  executionMode_default : Hex;
  executionMode_opData : Hex;
  abi : Abi;
  (* utils/abi/encodeFunctionData.js, on [{ abi, functionName, args }] *)
  encodeFunctionData :
    Abi -> option string -> option (list JsValue) -> result BaseError Hex;
  (* utils/abi/decodeErrorResult.js, on [{ abi, data }] *)
  decodeErrorResult : Abi -> Hex -> result BaseError DecodedError;
  (* ox/AbiParameters *)
  AbiParameters : Type;
  AbiParameters_from : list string -> AbiParameters;
  AbiParameters_encode : AbiParameters -> list JsValue -> result BaseError Hex;
  (* ox/AbiError: [getSelector (from signature)] *)
  AbiError_getSelector : string -> Hex;
  (* ./supportsExecutionMode.js, on [{ address, mode }] *)
  supportsExecutionMode : Client -> Address -> Hex -> result BaseError bool;
  (* actions/wallet/sendTransaction.js *)
  sendTransaction : Client -> TransactionRequest -> result BaseError Hex
}.

(** What [execute] throws. *)
Inductive Thrown : Type :=
| Original (e : BaseError)              (* [throw e], or an error passing through *)
| ExecuteUnsupportedError
| FunctionSelectorNotRecognizedError
| ContractError (cause : BaseError) (abi : option Abi) (address : Address)
    (args : option (list JsValue)) (docsPath : string)
    (functionName : option string).

(** Modelled from the spec: [getContractError] of
    [utils/errors/getContractError.js], which is not among the sources.
    Section 4.4, step 5: the new error carries the target address, the
    interface, the function name and the arguments it is given, layered over
    the low-level error. *)
Definition getContractError (error : BaseError) (abi : option Abi)
    (address : Address) (args : option (list JsValue)) (docsPath : string)
    (functionName : option string) : Thrown :=
  ContractError error abi address args docsPath functionName.

(** ** The world: capability cache and log *)

Inductive Event : Type :=
| Probe (address : Address) (mode : Hex)      (* the remote capability query *)
| Submit (request : TransactionRequest)       (* a call of [sendTransaction] *)
| Decode (abi : Abi) (data : Hex).            (* a call of [decodeErrorResult] *)

Record World : Type := {
  cache : gmap string bool;
  events : list Event
}.

Definition log (ev : Event) (w : World) : World :=
  {| cache := cache w; events := events w ++ [ev] |}.

Definition store (key : string) (v : bool) (w : World) : World :=
  {| cache := <[key := v]> (cache w); events := events w |}.

(** A computation on the world that returns or throws. *)
Definition M (E A : Type) : Type := World -> result E A * World.

Definition ret {E A} (a : A) : M E A := fun w => (Ok a, w).
Definition throw {E A} (e : E) : M E A := fun w => (Throw e, w).
Definition bind {E A B} (m : M E A) (k : A -> M E B) : M E B :=
  fun w => match m w with
           | (Ok a, w') => k a w'
           | (Throw e, w') => (Throw e, w')
           end.
(** A pure step that may throw. *)
Definition lift {E A} (r : result E A) : M E A := fun w => (r, w).
(** An error of a collaborator leaving [execute] as it is. *)
Definition propagate {A} (m : M BaseError A) : M Thrown A :=
  fun w => match m w with
           | (Ok a, w') => (Ok a, w')
           | (Throw e, w') => (Throw (Original e), w')
           end.
(** [try { body } catch (e) { handler }], for a handler that always throws. *)
Definition try_catch {A} (body : M BaseError A) (handler : BaseError -> World -> Thrown * World)
  : M Thrown A :=
  fun w => match body w with
           | (Ok a, w') => (Ok a, w')
           | (Throw e, w') => let (t, w'') := handler e w' in (Throw t, w'')
           end.

Notation "'let!' x ':=' m 'in' k" := (bind m (fun x => k))
  (at level 10, x name, m at level 100, k at level 200).

(** Modelled from the spec: [withCache] of [utils/promise/withCache.js], which
    is not among the sources. Section 6: it takes a key and a producer and
    returns the memoized result, computing it on the first miss. *)
Definition withCache {E} (fn : M E bool) (cacheKey : string) : M E bool :=
  fun w => match cache w !! cacheKey with
           | Some v => (Ok v, w)
           | None =>
               match fn w with
               | (Ok v, w') => (Ok v, store cacheKey v w')
               | (Throw e, w') => (Throw e, w')
               end
           end.

Section Execute.

Context `{Collaborators}.

(** ** [encodeCalls] *)

(** The callback of [calls_.map]. *)
Definition encodeCall (call : Call) : result BaseError EncodedCall :=
  rbind
    (match call_abi call with
     | Some a => encodeFunctionData a (call_functionName call) (call_args call)
     | None => Ok (match call_data call with
                   | Some d => d
                   | None => "0x"
                   end)
     end)
    (fun data =>
       Ok {| entry_data := data;
             entry_value := match call_value call with
                            | Some v => v
                            | None => 0%Z
                            end;
             entry_target := call_to call |}).

Definition encodeCalls (calls_ : list Call) (opData : option Hex)
  : result BaseError Hex :=
  rbind (map_result encodeCall calls_) (fun calls =>
    AbiParameters_encode
      (AbiParameters_from
         ("struct Call { address target; uint256 value; bytes data; }"
          :: "Call[] calls"
          :: match when_truthy opData with
             | Some _ => ["bytes opData"]
             | None => []
             end))
      (JsArray (map js_of_entry calls)
       :: match when_truthy opData with
          | Some o => [JsString o]
          | None => []
          end)).

(** ** [execute] *)

(** [authorizationList?.[0]?.contractAddress ?? parameters.address] *)
Definition effective_address (parameters : ExecuteParameters) : Address :=
  match authorizationList parameters with
  | Some (authorization :: _) =>
      match contractAddress authorization with
      | Some a => a
      | None => address parameters
      end
  | _ => address parameters
  end.

(** [opData ? executionMode.opData : executionMode.default] *)
Definition execute_mode (opData : option Hex) : Hex :=
  match when_truthy opData with
  | Some _ => executionMode_opData
  | None => executionMode_default
  end.

Definition cacheKey (client : Client) (address : Address) (mode : Hex) : string :=
  "supportsExecutionMode." +:+ uid client +:+ "." +:+ address +:+ "." +:+ mode.

(** The producer handed to [withCache]: the remote query. *)
Definition probe (client : Client) (address : Address) (mode : Hex)
  : M BaseError bool :=
  fun w => (supportsExecutionMode client address mode, log (Probe address mode) w).

(** [await withCache(() => supportsExecutionMode(...), { cacheKey })] *)
Definition capability (client : Client) (parameters : ExecuteParameters)
  : M BaseError bool :=
  let address := effective_address parameters in
  let mode := execute_mode (opData parameters) in
  withCache (probe client address mode) (cacheKey client address mode).

(** The [try] block: the arguments of [sendTransaction] are evaluated, then
    the transaction is submitted. *)
Definition execute_try (client : Client) (parameters : ExecuteParameters)
    (mode encodedCalls : Hex) : M BaseError Hex :=
  let! data := lift (encodeFunctionData abi (Some "execute")
                       (Some [JsString mode; JsString encodedCalls])) in
  let request := {| tx_parameters := parameters;
                    tx_to := address parameters;
                    tx_data := data |} in
  fun w => (sendTransaction client request, log (Submit request) w).

(** One turn of [for (const c of parameters.calls)]; [matched] is the
    variable of that name. *)
Definition match_call (data : Hex) (matched : option Call) (call : Call)
  : World -> option Call * World :=
  fun w =>
    match call_abi call with
    | None => (matched, w)                                   (* continue *)
    | Some a =>
        let w' := log (Decode a data) w in
        match decodeErrorResult a data with
        | Ok decoded =>
            if negb (Boolean_object decoded) then (matched, w')  (* continue *)
            else (Some call, w')                             (* matched = call *)
        | Throw _ => (matched, w')                           (* catch {} *)
        end
    end.

Fixpoint match_calls (data : Hex) (cs : list Call) (matched : option Call)
  : World -> option Call * World :=
  fun w =>
    match cs with
    | [] => (matched, w)
    | call :: rest =>
        let (matched', w') := match_call data matched call w in
        match_calls data rest matched' w'
    end.

(** The [catch (e)] block: the error resolver. It always throws. *)
Definition execute_catch (parameters : ExecuteParameters) (e : BaseError)
  : World -> Thrown * World :=
  fun w =>
    let error := walk has_data_property e in
    match error, when_truthy (data_of error) with
    | Some error, Some data =>
        if String.eqb data
             (AbiError_getSelector "error FnSelectorNotRecognized()")
        then (FunctionSelectorNotRecognizedError, w)
        else
          let (matched, w') := match_calls data (calls parameters) None w in
          match matched with
          | None => (Original e, w')
          | Some matched =>
              (getContractError error (call_abi matched) (call_to matched)
                 (call_args matched) "/experimental/erc7821/execute"
                 (call_functionName matched), w')
          end
    | _, _ => (Original e, w)                     (* if (!error?.data) throw e *)
    end.

Definition execute (client : Client) (parameters : ExecuteParameters)
  : M Thrown Hex :=
  let! encodedCalls :=
    propagate (lift (encodeCalls (calls parameters) (opData parameters))) in
  let mode := execute_mode (opData parameters) in
  let! supported := propagate (capability client parameters) in
  if negb supported then throw ExecuteUnsupportedError
  else try_catch (execute_try client parameters mode encodedCalls)
                 (execute_catch parameters).

End Execute.

(** ** Vocabulary of the statements *)

Section Vocabulary.

Context `{Collaborators}.

(** The schema and the values [encodeCalls] hands to the ABI encoder, for a
    batch with or without the trailing field. *)
Definition batch_signatures (trailing : bool) : list string :=
  ["struct Call { address target; uint256 value; bytes data; }"; "Call[] calls"]
  ++ (if trailing then ["bytes opData"] else []).

Definition batch_values (entries : list EncodedCall) (opData : option Hex)
  : list JsValue :=
  [JsArray (map js_of_entry entries)]
  ++ match opData with
     | Some o => [JsString o]
     | None => []
     end.

(** The [data] of an entry, as the call gives it. *)
Definition entry_data_of (call : Call) (entry : EncodedCall) : Prop :=
  match call_abi call, call_data call with
  | Some a, _ =>
      encodeFunctionData a (call_functionName call) (call_args call)
      = Ok (entry_data entry)
  | None, Some d => entry_data entry = d
  | None, None => entry_data entry = "0x"
  end.

(** The interface of a call decodes the revert data: [decodeErrorResult]
    returns for it. A call without an interface decodes nothing. *)
Definition decodes (data : Hex) (call : Call) : bool :=
  match call_abi call with
  | Some a =>
      match decodeErrorResult a data with
      | Ok _ => true
      | Throw _ => false
      end
  | None => false
  end.

(** One turn of the matching loop, without the log: [matched] after the
    turn. *)
Definition matched_after (data : Hex) (matched : option Call) (call : Call)
  : option Call :=
  if decodes data call then Some call else matched.

(** The sentinel of [error FnSelectorNotRecognized()]. *)
Definition sentinel : Hex :=
  AbiError_getSelector "error FnSelectorNotRecognized()".

(** The contextualized error for a matched call. *)
Definition contract_error_for (error : BaseError) (matched : Call) : Thrown :=
  ContractError error (call_abi matched) (call_to matched) (call_args matched)
    "/experimental/erc7821/execute" (call_functionName matched).

End Vocabulary.

(** An error carries revert data when its [data] is a non-empty string. *)
Definition carries_revert_data (e : BaseError) : bool :=
  match when_truthy (data_of (Some e)) with
  | Some _ => true
  | None => false
  end.

(** The events a run appended to the log. *)
Definition new_events (before after : World) : list Event :=
  drop (length (events before)) (events after).

Definition is_Submit (ev : Event) : bool :=
  match ev with Submit _ => true | _ => false end.
Definition is_Probe (ev : Event) : bool :=
  match ev with Probe _ _ => true | _ => false end.
Definition is_Decode (ev : Event) : bool :=
  match ev with Decode _ _ => true | _ => false end.

(** ** A fixture

    Stand-ins for the collaborators, to run [execute] on concrete inputs.
    They are not the real ABI coders: selectors come from a table and the
    encoders concatenate digits. The theorems below do not depend on them. *)
Module Fixture.

Definition selectors : list (string * Hex) :=
  [("execute", "0xe9ae5c53");
   ("transfer", "0xa9059cbb");
   ("approve", "0x095ea7b3");
   ("InsufficientBalance", "0xf4d678b8");
   ("Unauthorized", "0x82b42900");
   ("FnSelectorNotRecognized", "0x3c10b94e")].

Fixpoint selector_of (table : list (string * Hex)) (name : string) : option Hex :=
  match table with
  | [] => None
  | (n, s) :: rest => if String.eqb n name then Some s else selector_of rest name
  end.

Definition strip0x (h : Hex) : string :=
  String.substring 2 (String.length h - 2) h.

Definition digits (v : JsValue) : string :=
  match v with
  | JsString s => strip0x s
  | _ => ""
  end.

Definition not_found (name : string) : BaseError := MkBaseError name NoData None.

Definition fx_encodeFunctionData (a : Abi) (functionName : option string)
    (args : option (list JsValue)) : result BaseError Hex :=
  match functionName with
  | None => Throw (not_found "AbiFunctionNotFoundError")
  | Some n =>
      if existsb (fun it => String.eqb (item_type it) "function"
                            && String.eqb (item_name it) n) a
      then match selector_of selectors n with
           | Some s => Ok (s +:+ String.concat "" (map digits (default [] args)))
           | None => Throw (not_found "AbiFunctionNotFoundError")
           end
      else Throw (not_found "AbiFunctionNotFoundError")
  end.

Definition fx_decodeErrorResult (a : Abi) (data : Hex)
  : result BaseError DecodedError :=
  match find (fun it => String.eqb (item_type it) "error"
                        && match selector_of selectors (item_name it) with
                           | Some s => String.eqb s (leading_signature data)
                           | None => false
                           end) a with
  | Some it => Ok {| decoded_abiItem := it;
                     decoded_errorName := item_name it;
                     decoded_args := None |}
  | None => Throw (not_found "AbiErrorSignatureNotFoundError")
  end.

Definition render_entry (v : JsValue) : string :=
  match v with
  | JsObject [(_, JsString d); (_, JsBigInt z); (_, JsString t)] =>
      strip0x t +:+ strip0x (HexString.of_Z z) +:+ strip0x d
  | _ => ""
  end.

Definition render (v : JsValue) : string :=
  match v with
  | JsArray items =>
      strip0x (HexString.of_nat (length items))
      +:+ String.concat "" (map render_entry items)
  | JsString s => strip0x s
  | _ => ""
  end.

Definition fx_encode (signatures : list string) (values : list JsValue)
  : result BaseError Hex :=
  if Nat.eqb (length signatures) (S (length values))
  then Ok ("0x" +:+ String.concat "" (map render values))
  else Throw (not_found "AbiParameters.LengthMismatchError").

Definition erc7821_abi : Abi :=
  [ {| item_type := "function"; item_name := "execute";
       item_inputs := ["bytes32"; "bytes"] |};
    {| item_type := "function"; item_name := "supportsExecutionMode";
       item_inputs := ["bytes32"] |};
    {| item_type := "error"; item_name := "FnSelectorNotRecognized";
       item_inputs := [] |} ].

(** The collaborators, for a given answer of the capability query and a given
    outcome of the submission. *)
Definition collaborators (supported : result BaseError bool)
    (sent : result BaseError Hex) : Collaborators :=
  {| executionMode_default :=
       "0x0100000000000000000000000000000000000000000000000000000000000000";
     executionMode_opData :=
       "0x0100000000007821000100000000000000000000000000000000000000000000";
     abi := erc7821_abi;
     encodeFunctionData := fx_encodeFunctionData;
     decodeErrorResult := fx_decodeErrorResult;
     AbiParameters := list string;
     AbiParameters_from := fun signatures => signatures;
     AbiParameters_encode := fx_encode;
     AbiError_getSelector := fun signature =>
       if String.eqb signature "error FnSelectorNotRecognized()"
       then "0x3c10b94e" else "0x00000000";
     supportsExecutionMode := fun _ _ _ => supported;
     sendTransaction := fun _ _ => sent |}.

Definition client : Client := {| uid := "client-1" |}.

Definition empty_world : World := {| cache := ∅; events := [] |}.

Definition eoa : Address := "0x70997970c51812dc3a010c7d01b50e0d17dc79c8".
Definition delegate : Address := "0x5fbdb2315678afecb367f032d93f642f64180aa3".
Definition token_a : Address := "0x00000000000000000000000000000000000000aa".
Definition token_b : Address := "0x00000000000000000000000000000000000000bb".

Definition token_abi : Abi :=
  [ {| item_type := "function"; item_name := "transfer";
       item_inputs := ["address"; "uint256"] |};
    {| item_type := "function"; item_name := "approve";
       item_inputs := ["address"; "uint256"] |};
    {| item_type := "error"; item_name := "InsufficientBalance";
       item_inputs := [] |} ].

Definition guarded_abi : Abi :=
  [ {| item_type := "function"; item_name := "transfer";
       item_inputs := ["address"; "uint256"] |};
    {| item_type := "error"; item_name := "Unauthorized";
       item_inputs := [] |} ].

Definition raw_call (to : Address) (data : option Hex) (value : option Z) : Call :=
  {| call_to := to; call_abi := None; call_functionName := None;
     call_args := None; call_data := data; call_value := value |}.

Definition abi_call (to : Address) (a : Abi) (fn : string) (args : list JsValue)
  : Call :=
  {| call_to := to; call_abi := Some a; call_functionName := Some fn;
     call_args := Some args; call_data := None; call_value := None |}.

Definition transfer_a : Call :=
  abi_call token_a token_abi "transfer" [JsString eoa; JsBigInt 1].
Definition transfer_b : Call :=
  abi_call token_b token_abi "transfer" [JsString eoa; JsBigInt 2].
Definition transfer_guarded : Call :=
  abi_call token_a guarded_abi "transfer" [JsString eoa; JsBigInt 3].

Definition parameters (auth : option (list Authorization)) (cs : list Call)
    (op : option Hex) : ExecuteParameters :=
  {| authorizationList := auth; account := Some eoa; gas := None;
     gasPrice := None; maxFeePerGas := None; maxPriorityFeePerGas := None;
     address := eoa; calls := cs; opData := op |}.

(** A submission failure: an execution error caused by an RPC error that
    carries revert data. *)
Definition revert_with (data : Hex) : BaseError :=
  MkBaseError "TransactionExecutionError" NoData
    (Some (MkBaseError "ExecutionRevertedError" NoData
       (Some (MkBaseError "RpcRequestError" (DataValue data) None)))).

(** A submission failure with no revert data anywhere. *)
Definition plain_failure : BaseError :=
  MkBaseError "TransactionExecutionError" NoData
    (Some (MkBaseError "HttpRequestError" NoData None)).

End Fixture.

(** ** Vocabulary of the further statements *)

(** Two calls that differ only where [encodeCalls] does not look: a missing
    [value] against [0n], a missing [data] against ["0x"] for a call without
    an interface, anything in [data] for a call with one (and [functionName]
    and [args] for a call without one). *)
Definition same_entry (c1 c2 : Call) : Prop :=
  call_to c1 = call_to c2
  /\ call_abi c1 = call_abi c2
  /\ default 0%Z (call_value c1) = default 0%Z (call_value c2)
  /\ match call_abi c1 with
     | Some _ =>
         call_functionName c1 = call_functionName c2
         /\ call_args c1 = call_args c2
     | None => default "0x" (call_data c1) = default "0x" (call_data c2)
     end.

(** No ["."] in the string: so for every address and every mode, which are
    hex strings. *)
Fixpoint dot_free (s : string) : bool :=
  match s with
  | EmptyString => true
  | String c rest => negb (Ascii.eqb c "."%char) && dot_free rest
  end.

Module Fixture2.

(** The fixture, with an ERC-7821 interface that lacks [execute]: encoding the
    call data of the transaction fails. *)
Definition collaborators_without_execute (supported : result BaseError bool)
    (sent : result BaseError Hex) : Collaborators :=
  let C := Fixture.collaborators supported sent in
  {| executionMode_default := @executionMode_default C;
     executionMode_opData := @executionMode_opData C;
     abi := [];
     encodeFunctionData := @encodeFunctionData C;
     decodeErrorResult := @decodeErrorResult C;
     AbiParameters := @AbiParameters C;
     AbiParameters_from := @AbiParameters_from C;
     AbiParameters_encode := @AbiParameters_encode C;
     AbiError_getSelector := @AbiError_getSelector C;
     supportsExecutionMode := @supportsExecutionMode C;
     sendTransaction := @sendTransaction C |}.

(** A call to a function its interface does not declare. *)
Definition mint_a : Call :=
  Fixture.abi_call Fixture.token_a Fixture.token_abi "mint" [JsBigInt 1].

(** A submission failure whose outer error has a [data] property that is
    [undefined], over a cause that carries revert data. *)
Definition shadowed_failure (data : Hex) : BaseError :=
  MkBaseError "TransactionExecutionError" NoData
    (Some (MkBaseError "RpcRequestError" DataUndefined
       (Some (MkBaseError "ExecutionRevertedError" (DataValue data) None)))).

End Fixture2.

(** * Properties *)

(** ** Strings and truthiness *)

Lemma js_truthy_spec (s : string) : js_truthy s = true <-> s <> "".
Proof.
  unfold js_truthy. rewrite negb_true_iff.
  destruct (String.eqb_spec s ""); split; congruence.
Qed.

Lemma is_Hex_truthy (s : string) : is_Hex s = true -> js_truthy s = true.
Proof. destruct s; [discriminate | reflexivity]. Qed.

Lemma when_truthy_Some (o : option string) (s : string) :
  when_truthy o = Some s <-> o = Some s /\ s <> "".
Proof.
  unfold when_truthy. destruct o as [t|]; [|split; [discriminate | intros [? _]; discriminate]].
  destruct (js_truthy t) eqn:Ht.
  - apply js_truthy_spec in Ht. split.
    + intros [= ->]. auto.
    + intros [[= ->] _]. reflexivity.
  - split; [discriminate|]. intros [[= ->] Hs].
    apply js_truthy_spec in Hs. congruence.
Qed.

Lemma when_truthy_None (o : option string) :
  when_truthy o = None <-> o = None \/ o = Some "".
Proof.
  unfold when_truthy. destruct o as [t|]; [|split; auto].
  destruct (js_truthy t) eqn:Ht.
  - apply js_truthy_spec in Ht. split; [discriminate|].
    intros [|[= ->]]; [discriminate | congruence].
  - split; [|reflexivity]. intros _. right. f_equal.
    unfold js_truthy in Ht. rewrite negb_false_iff in Ht.
    now apply String.eqb_eq.
Qed.

(** An [opData] of type [Hex] is truthy whenever it is defined. *)
Lemma when_truthy_Hex (o : option Hex) :
  (forall h, o = Some h -> is_Hex h = true) -> when_truthy o = o.
Proof.
  intros Hwf. destruct o as [h|]; [|reflexivity].
  unfold when_truthy. now rewrite is_Hex_truthy by auto.
Qed.

(** ** [map] with a throwing callback *)

Lemma map_result_Ok {E A B} (f : A -> result E B) (l : list A) (ys : list B) :
  map_result f l = Ok ys <-> Forall2 (fun x y => f x = Ok y) l ys.
Proof.
  revert ys. induction l as [|x l IH]; intros ys; simpl.
  - split.
    + intros [= <-]. constructor.
    + intros Hl. inversion Hl. reflexivity.
  - split.
    + destruct (f x) as [y|e] eqn:Hx; [|discriminate]. simpl.
      destruct (map_result f l) as [ys'|e] eqn:Hl; [|discriminate]. simpl.
      intros [= <-]. constructor; [assumption|]. now apply IH.
    + intros Hl. inversion Hl as [|? y ? ys' Hx Hrest]; subst.
      rewrite Hx. simpl. apply IH in Hrest. now rewrite Hrest.
Qed.

Section Encoder.

Context `{Collaborators}.

Lemma encodeCall_Ok (call : Call) (entry : EncodedCall) :
  encodeCall call = Ok entry <->
  entry_data_of call entry
  /\ entry_value entry = default 0%Z (call_value call)
  /\ entry_target entry = call_to call.
Proof.
  unfold encodeCall, entry_data_of. destruct entry as [d v t]. simpl.
  destruct (call_abi call) as [a|].
  - destruct (encodeFunctionData a _ _) as [d'|e]; simpl.
    + split.
      * intros [= -> <- <-]. destruct (call_value call); auto.
      * intros ([= ->] & -> & ->). destruct (call_value call); reflexivity.
    + split; [discriminate | intros ([=] & _)].
  - split.
    + intros [= <- <- <-].
      destruct (call_data call), (call_value call); auto.
    + intros (Hd & -> & ->).
      destruct (call_data call), (call_value call); simpl; now subst.
Qed.

(** [encodeCalls] returns exactly when every call's entry can be built and
    the ABI encoder accepts the batch. *)
Lemma encodeCalls_Ok (calls_ : list Call) (opData : option Hex) (h : Hex) :
  encodeCalls calls_ opData = Ok h <->
  exists entries,
    Forall2 (fun call entry => encodeCall call = Ok entry) calls_ entries
    /\ AbiParameters_encode
         (AbiParameters_from
            (batch_signatures (bool_decide (is_Some (when_truthy opData)))))
         (batch_values entries (when_truthy opData)) = Ok h.
Proof.
  unfold encodeCalls, batch_signatures, batch_values.
  destruct (map_result encodeCall calls_) as [entries|e] eqn:Hmap; simpl.
  - apply map_result_Ok in Hmap. split.
    + intros Henc. exists entries. split; [assumption|].
      destruct (when_truthy opData); exact Henc.
    + intros (entries' & Hall & Henc).
      assert (entries' = entries) as ->.
      { clear Henc. revert entries' Hall.
        induction Hmap as [|c y cs ys Hc _ IH]; intros entries' Hall;
          inversion Hall; subst; [reflexivity|].
        f_equal; [congruence | now apply IH]. }
      destruct (when_truthy opData); exact Henc.
  - split; [discriminate|]. intros (entries & Hall & _).
    apply map_result_Ok in Hall. congruence.
Qed.

End Encoder.

(** ** The call-batch encoder *)

(** C4. For every call of the input list, the [data] of its entry in the
    encoded batch is the interface-based encoding of (function name,
    arguments) when the call declares an interface; otherwise the call's raw
    data when it has some; otherwise the empty bytes ["0x"]. *)
Theorem encodeCalls_entry_data `{Collaborators}
    (calls_ : list Call) (opData : option Hex) (h : Hex) :
  encodeCalls calls_ opData = Ok h ->
  exists entries : list EncodedCall,
    AbiParameters_encode
      (AbiParameters_from
         (batch_signatures (bool_decide (is_Some (when_truthy opData)))))
      (batch_values entries (when_truthy opData)) = Ok h
    /\ length entries = length calls_
    /\ forall (i : nat) (call : Call),
         calls_ !! i = Some call ->
         exists entry, entries !! i = Some entry /\ entry_data_of call entry.
Proof.
  intros Henc. apply encodeCalls_Ok in Henc as (entries & Hall & Henc).
  exists entries. split; [assumption|]. split.
  - symmetry. eapply Forall2_length, Hall.
  - intros i call Hi.
    destruct (Forall2_lookup_l _ _ _ _ _ Hall Hi) as (entry & He & Hcall).
    exists entry. split; [assumption|].
    now apply encodeCall_Ok in Hcall as (Hd & _).
Qed.

Lemma encodeCalls_entry_data_witness :
  let C := Fixture.collaborators (Ok true) (Ok "0x01") in
  exists entries : list EncodedCall,
    AbiParameters_encode
      (AbiParameters_from (batch_signatures false))
      (batch_values entries None)
    = Ok "0x300000000000000000000000000000000000000aa0a9059cbb70997970c51812dc3a010c7d01b50e0d17dc79c800000000000000000000000000000000000000aa0dead00000000000000000000000000000000000000bb64"
    /\ length entries = 3
    /\ forall (i : nat) (call : Call),
         [Fixture.transfer_a;
          Fixture.raw_call Fixture.token_a (Some "0xdead") None;
          Fixture.raw_call Fixture.token_b None (Some 100%Z)] !! i = Some call ->
         exists entry, entries !! i = Some entry /\ entry_data_of call entry.
Proof.
  intros C.
  apply (@encodeCalls_entry_data C
           [Fixture.transfer_a;
            Fixture.raw_call Fixture.token_a (Some "0xdead") None;
            Fixture.raw_call Fixture.token_b None (Some 100%Z)] None).
  vm_compute. reflexivity.
Defined.

(** C8. For every call list and optional [opData] (a [Hex] when supplied), the
    encoded batch follows the fixed positional schema: the array of
    (target, value, data) structs in input order, followed by the trailing
    [bytes opData] field exactly when [opData] is present; each entry's
    target is the call's [to] and its value is the call's value, or 0 when
    the call supplies none. *)
Theorem encodeCalls_schema `{Collaborators}
    (calls_ : list Call) (opData : option Hex) (h : Hex) :
  (forall o, opData = Some o -> is_Hex o = true) ->
  encodeCalls calls_ opData = Ok h ->
  exists entries : list EncodedCall,
    AbiParameters_encode
      (AbiParameters_from (batch_signatures (bool_decide (is_Some opData))))
      (batch_values entries opData) = Ok h
    /\ Forall2 (fun call entry =>
                  entry_target entry = call_to call
                  /\ entry_value entry = default 0%Z (call_value call)
                  /\ entry_data_of call entry)
         calls_ entries.
Proof.
  intros Hwf Henc. apply encodeCalls_Ok in Henc as (entries & Hall & Henc).
  rewrite (when_truthy_Hex opData Hwf) in Henc.
  exists entries. split; [assumption|].
  eapply Forall2_impl; [exact Hall|]. simpl. intros call entry Hcall.
  apply encodeCall_Ok in Hcall. tauto.
Qed.

Lemma encodeCalls_schema_witness :
  let C := Fixture.collaborators (Ok true) (Ok "0x01") in
  exists entries : list EncodedCall,
    AbiParameters_encode
      (AbiParameters_from (batch_signatures true))
      (batch_values entries (Some "0x1234"))
    = Ok "0x200000000000000000000000000000000000000aa0dead00000000000000000000000000000000000000bb641234"
    /\ Forall2 (fun call entry =>
                  entry_target entry = call_to call
                  /\ entry_value entry = default 0%Z (call_value call)
                  /\ entry_data_of call entry)
         [Fixture.raw_call Fixture.token_a (Some "0xdead") None;
          Fixture.raw_call Fixture.token_b None (Some 100%Z)] entries.
Proof.
  intros C.
  apply (@encodeCalls_schema C
           [Fixture.raw_call Fixture.token_a (Some "0xdead") None;
            Fixture.raw_call Fixture.token_b None (Some 100%Z)]
           (Some "0x1234")).
  - intros o [= <-]. reflexivity.
  - vm_compute. reflexivity.
Defined.

(** The encoder reads its arguments through the entries they give and the
    truthiness of [opData] only. *)
Lemma encodeCalls_ext `{Collaborators}
    (calls1 calls2 : list Call) (opData1 opData2 : option Hex) :
  Forall2 (fun c1 c2 => encodeCall c1 = encodeCall c2) calls1 calls2 ->
  when_truthy opData1 = when_truthy opData2 ->
  encodeCalls calls1 opData1 = encodeCalls calls2 opData2.
Proof.
  intros Hcalls Hop. unfold encodeCalls. rewrite Hop.
  replace (map_result encodeCall calls2) with (map_result encodeCall calls1);
    [reflexivity|].
  induction Hcalls as [|c1 c2 l1 l2 Hc _ IH]; simpl; [reflexivity|].
  now rewrite Hc, IH.
Qed.



(** The empty call list with no auxiliary data: the map builds no entry
    and the stand-in ABI encoder of the fixture returns the zero-length
    array. What the ABI encoder of [ox] returns there is not in the
    sources. *)
Example encodeCalls_empty_fixture :
  @encodeCalls (Fixture.collaborators (Ok true) (Ok "0x01")) [] None = Ok "0x0".
Proof. reflexivity. Qed.

(** ** The cause chain *)

Lemma BaseError_cause_ind (P : BaseError -> Prop) :
  (forall name data, P (MkBaseError name data None)) ->
  (forall name data cause, P cause -> P (MkBaseError name data (Some cause))) ->
  forall e, P e.
Proof.
  intros Hend Hstep. fix IH 1.
  intros [name data [cause|]]; [apply Hstep, IH | apply Hend].
Qed.

Lemma walk_Some (fn : BaseError -> bool) (e error : BaseError) :
  walk fn e = Some error -> In error (cause_chain e) /\ fn error = true.
Proof.
  induction e as [name data | name data cause IH] using BaseError_cause_ind;
    simpl; destruct (fn (MkBaseError name data _)) eqn:Hfn.
  - intros [= <-]. auto.
  - discriminate.
  - intros [= <-]. auto.
  - intros Hw. apply IH in Hw as [Hin Hf]. auto.
Qed.

Lemma walk_None (fn : BaseError -> bool) (e : BaseError) :
  walk fn e = None -> Forall (fun err => fn err = false) (cause_chain e).
Proof.
  induction e as [name data | name data cause IH] using BaseError_cause_ind;
    simpl; destruct (fn (MkBaseError name data _)) eqn:Hfn; try discriminate.
  - intros _. repeat constructor. assumption.
  - intros Hw. constructor; auto.
Qed.

(** Without an error that carries revert data in the chain, [error?.data] is
    falsy whatever the walk returns. *)
Lemma no_revert_data_falsy (e : BaseError) :
  Forall (fun err => carries_revert_data err = false) (cause_chain e) ->
  when_truthy (data_of (walk has_data_property e)) = None.
Proof.
  intros Hnone. destruct (walk has_data_property e) as [error|] eqn:Hw;
    [|reflexivity].
  apply walk_Some in Hw as [Hin _].
  rewrite List.Forall_forall in Hnone. specialize (Hnone error Hin).
  unfold carries_revert_data in Hnone.
  now destruct (when_truthy (data_of (Some error))).
Qed.

Section Resolver.

Context `{Collaborators}.

(** *** The matching loop *)

Lemma match_call_fst data matched call w :
  fst (match_call data matched call w) = matched_after data matched call.
Proof.
  unfold match_call, matched_after, decodes.
  destruct (call_abi call) as [a|]; [|reflexivity].
  destruct (decodeErrorResult a data); reflexivity.
Qed.

Lemma match_call_snd data matched call w :
  snd (match_call data matched call w)
  = match call_abi call with
    | Some a => log (Decode a data) w
    | None => w
    end.
Proof.
  unfold match_call. destruct (call_abi call) as [a|]; [|reflexivity].
  destruct (decodeErrorResult a data); reflexivity.
Qed.

Lemma match_calls_fst data cs matched w :
  fst (match_calls data cs matched w)
  = fold_left (matched_after data) cs matched.
Proof.
  revert matched w. induction cs as [|call rest IH]; intros matched w; simpl;
    [reflexivity|].
  destruct (match_call data matched call w) as [m' w'] eqn:Hstep.
  rewrite IH. f_equal.
  now rewrite <- (match_call_fst data matched call w), Hstep.
Qed.

(** The loop logs one [Decode] per call that has an interface, in order, and
    leaves the cache alone. *)
Lemma match_calls_snd data cs matched w :
  snd (match_calls data cs matched w)
  = {| cache := cache w;
       events := events w ++ map (fun a => Decode a data) (omap call_abi cs) |}.
Proof.
  revert matched w. induction cs as [|call rest IH]; intros matched w; simpl.
  - rewrite app_nil_r. now destruct w.
  - destruct (match_call data matched call w) as [m' w'] eqn:Hstep.
    rewrite IH.
    pose proof (match_call_snd data matched call w) as Hsnd.
    rewrite Hstep in Hsnd. simpl in Hsnd. subst w'.
    destruct (call_abi call) as [a|]; simpl; [|reflexivity].
    now rewrite <- app_assoc.
Qed.

Lemma fold_no_match data cs matched :
  Forall (fun call => decodes data call = false) cs ->
  fold_left (matched_after data) cs matched = matched.
Proof.
  intros Hall. revert matched.
  induction Hall as [|call rest Hcall _ IH]; intros matched; simpl;
    [reflexivity|].
  rewrite IH. unfold matched_after. now rewrite Hcall.
Qed.

(** The last call that decodes is the one the loop keeps. *)
Lemma fold_last_match data before call after matched :
  decodes data call = true ->
  Forall (fun c => decodes data c = false) after ->
  fold_left (matched_after data) (before ++ call :: after) matched = Some call.
Proof.
  intros Hcall Hafter. rewrite fold_left_app. simpl.
  rewrite fold_no_match by assumption.
  unfold matched_after at 1. now rewrite Hcall.
Qed.

(** The loop keeps a call exactly when some call decodes. *)
Lemma fold_match_iff data cs :
  fold_left (matched_after data) cs None = None
  <-> Forall (fun call => decodes data call = false) cs.
Proof.
  split; [|apply fold_no_match].
  assert (forall m, fold_left (matched_after data) cs m = None ->
                    m = None /\ Forall (fun c => decodes data c = false) cs)
    as Hgen.
  { induction cs as [|call rest IH]; intros m; simpl; [auto|].
    intros Hfold. apply IH in Hfold as [Hm Hrest].
    unfold matched_after in Hm.
    destruct (decodes data call) eqn:Hd; [discriminate|]. auto. }
  intros Hfold. now apply Hgen in Hfold.
Qed.

(** *** The [catch] block, case by case *)

Lemma execute_catch_no_data parameters e w :
  when_truthy (data_of (walk has_data_property e)) = None ->
  execute_catch parameters e w = (Original e, w).
Proof.
  intros Hfalsy. unfold execute_catch. cbv zeta.
  destruct (walk has_data_property e) as [error|]; [|reflexivity].
  now rewrite Hfalsy.
Qed.

Lemma walk_data (e error : BaseError) (data : Hex) :
  walk has_data_property e = Some error ->
  err_data error = DataValue data ->
  data <> "" ->
  when_truthy (data_of (walk has_data_property e)) = Some data.
Proof.
  intros -> Hdata Hne. destruct error as [name d cause]. simpl in *. subst d.
  apply when_truthy_Some. auto.
Qed.

Lemma execute_catch_sentinel parameters e w error :
  walk has_data_property e = Some error ->
  when_truthy (data_of (Some error)) = Some sentinel ->
  execute_catch parameters e w = (FunctionSelectorNotRecognizedError, w).
Proof.
  intros Hw Hdata. unfold execute_catch. cbv zeta. rewrite Hw, Hdata.
  unfold sentinel. now rewrite String.eqb_refl.
Qed.

Lemma execute_catch_match parameters e w error data :
  walk has_data_property e = Some error ->
  when_truthy (data_of (Some error)) = Some data ->
  data <> sentinel ->
  execute_catch parameters e w
  = (match fold_left (matched_after data) (calls parameters) None with
     | Some matched => contract_error_for error matched
     | None => Original e
     end,
     {| cache := cache w;
        events := events w
                  ++ map (fun a => Decode a data)
                       (omap call_abi (calls parameters)) |}).
Proof.
  intros Hw Hdata Hne. unfold execute_catch. cbv zeta. rewrite Hw, Hdata.
  apply String.eqb_neq in Hne. unfold sentinel in Hne. rewrite Hne.
  pose proof (match_calls_fst data (calls parameters) None w) as Hfst.
  pose proof (match_calls_snd data (calls parameters) None w) as Hsnd.
  destruct (match_calls data (calls parameters) None w) as [m w'].
  simpl in Hfst, Hsnd. subst m w'.
  now destruct (fold_left _ _ _).
Qed.

End Resolver.

(** ** The error resolver *)

(** C1, as the code has it. When the revert data found in the cause chain
    (non-empty, not the sentinel) decodes against the interfaces of one or
    more calls, the LAST call in list order whose interface decodes it is the
    matched one, and the raised contextualized error carries that call's
    target, function name and arguments (and its interface), over the error
    that held the data. *)
Theorem resolver_last_match_wins `{Collaborators}
    (parameters : ExecuteParameters) (e : BaseError) (w : World)
    (error : BaseError) (data : Hex) (before after : list Call) (call : Call) :
  walk has_data_property e = Some error ->
  err_data error = DataValue data ->
  data <> "" ->
  data <> sentinel ->
  calls parameters = before ++ call :: after ->
  decodes data call = true ->
  Forall (fun c => decodes data c = false) after ->
  fst (execute_catch parameters e w)
  = ContractError error (call_abi call) (call_to call) (call_args call)
      "/experimental/erc7821/execute" (call_functionName call).
Proof.
  intros Hw Hdata Hne Hsent Hcalls Hcall Hafter.
  pose proof (walk_data e error data Hw Hdata Hne) as Htruthy.
  rewrite Hw in Htruthy.
  rewrite (execute_catch_match parameters e w error data Hw Htruthy Hsent).
  rewrite Hcalls, fold_last_match by assumption. reflexivity.
Qed.

Lemma resolver_last_match_wins_witness :
  let C := Fixture.collaborators (Ok true) (Ok "0x01") in
  fst (execute_catch
         (Fixture.parameters None [Fixture.transfer_a; Fixture.transfer_b] None)
         (Fixture.revert_with "0xf4d678b8") Fixture.empty_world)
  = ContractError (MkBaseError "RpcRequestError" (DataValue "0xf4d678b8") None)
      (Some Fixture.token_abi) Fixture.token_b
      (Some [JsString Fixture.eoa; JsBigInt 2])
      "/experimental/erc7821/execute" (Some "transfer").
Proof.
  intros C.
  apply (@resolver_last_match_wins C
           (Fixture.parameters None [Fixture.transfer_a; Fixture.transfer_b] None)
           (Fixture.revert_with "0xf4d678b8") Fixture.empty_world
           (MkBaseError "RpcRequestError" (DataValue "0xf4d678b8") None)
           "0xf4d678b8" [Fixture.transfer_a] [] Fixture.transfer_b).
  - reflexivity.
  - reflexivity.
  - discriminate.
  - discriminate.
  - reflexivity.
  - reflexivity.
  - constructor.
Defined.

(** C1, as the claim states it, fails: with two calls whose interfaces both
    decode the revert data, the first in list order is not the one the
    raised error names. *)
Lemma resolver_first_match_refuted :
  ~ (forall (C : Collaborators) (parameters : ExecuteParameters)
            (e : BaseError) (w : World) (error : BaseError) (data : Hex)
            (before after : list Call) (call : Call),
        walk has_data_property e = Some error ->
        err_data error = DataValue data ->
        data <> "" ->
        data <> sentinel ->
        calls parameters = before ++ call :: after ->
        Forall (fun c => decodes data c = false) before ->
        decodes data call = true ->
        Exists (fun c => decodes data c = true) after ->
        fst (execute_catch parameters e w)
        = ContractError error (call_abi call) (call_to call) (call_args call)
            "/experimental/erc7821/execute" (call_functionName call)).
Proof.
  intros Hclaim.
  specialize (Hclaim (Fixture.collaborators (Ok true) (Ok "0x01"))
    (Fixture.parameters None [Fixture.transfer_a; Fixture.transfer_b] None)
    (Fixture.revert_with "0xf4d678b8") Fixture.empty_world
    (MkBaseError "RpcRequestError" (DataValue "0xf4d678b8") None)
    "0xf4d678b8" [] [Fixture.transfer_b] Fixture.transfer_a).
  assert (Fixture.token_b = Fixture.token_a) as Heq; [|discriminate Heq].
  enough (ContractError (MkBaseError "RpcRequestError" (DataValue "0xf4d678b8") None)
            (Some Fixture.token_abi) Fixture.token_b
            (Some [JsString Fixture.eoa; JsBigInt 2])
            "/experimental/erc7821/execute" (Some "transfer")
          = ContractError (MkBaseError "RpcRequestError" (DataValue "0xf4d678b8") None)
              (Some Fixture.token_abi) Fixture.token_a
              (Some [JsString Fixture.eoa; JsBigInt 1])
              "/experimental/erc7821/execute" (Some "transfer")) as Hboth
    by now injection Hboth.
  apply Hclaim.
  - reflexivity.
  - reflexivity.
  - discriminate.
  - discriminate.
  - reflexivity.
  - constructor.
  - reflexivity.
  - constructor. reflexivity.
Qed.

(** C6, as the code has it. When the revert data found in the cause chain is
    exactly the sentinel selector (the whole string, compared with [===]),
    the resolver raises the mode-not-recognized error whatever the call list
    holds, and logs no decoding: the per-call matching is not attempted. *)
Theorem resolver_sentinel `{Collaborators}
    (parameters : ExecuteParameters) (e : BaseError) (w : World)
    (error : BaseError) :
  walk has_data_property e = Some error ->
  err_data error = DataValue sentinel ->
  sentinel <> "" ->
  execute_catch parameters e w = (FunctionSelectorNotRecognizedError, w).
Proof.
  intros Hw Hdata Hne.
  pose proof (walk_data e error sentinel Hw Hdata Hne) as Htruthy.
  rewrite Hw in Htruthy.
  exact (execute_catch_sentinel parameters e w error Hw Htruthy).
Qed.

Lemma resolver_sentinel_witness :
  let C := Fixture.collaborators (Ok true) (Ok "0x01") in
  execute_catch
    (Fixture.parameters None [Fixture.transfer_a; Fixture.transfer_b] None)
    (Fixture.revert_with "0x3c10b94e") Fixture.empty_world
  = (FunctionSelectorNotRecognizedError, Fixture.empty_world).
Proof.
  intros C.
  apply (@resolver_sentinel C
           (Fixture.parameters None [Fixture.transfer_a; Fixture.transfer_b] None)
           (Fixture.revert_with "0x3c10b94e") Fixture.empty_world
           (MkBaseError "RpcRequestError" (DataValue "0x3c10b94e") None)).
  - reflexivity.
  - reflexivity.
  - discriminate.
Defined.

(** C6, as the claim states it, fails: revert data whose leading four bytes
    are the sentinel selector, followed by more bytes, is not the sentinel
    for the resolver, which goes on to the per-call matching. *)
Lemma resolver_leading_signature_refuted :
  ~ (forall (C : Collaborators) (parameters : ExecuteParameters)
            (e : BaseError) (w : World) (error : BaseError) (data : Hex),
        walk has_data_property e = Some error ->
        err_data error = DataValue data ->
        leading_signature data = sentinel ->
        fst (execute_catch parameters e w) = FunctionSelectorNotRecognizedError).
Proof.
  intros Hclaim.
  specialize (Hclaim (Fixture.collaborators (Ok true) (Ok "0x01"))
    (Fixture.parameters None [Fixture.transfer_a] None)
    (Fixture.revert_with
       "0x3c10b94e0000000000000000000000000000000000000000000000000000000000000000")
    Fixture.empty_world
    (MkBaseError "RpcRequestError"
       (DataValue
          "0x3c10b94e0000000000000000000000000000000000000000000000000000000000000000")
       None)
    "0x3c10b94e0000000000000000000000000000000000000000000000000000000000000000"
    eq_refl eq_refl eq_refl).
  vm_compute in Hclaim. discriminate Hclaim.
Qed.

(** C7, as the code has it. When no error of the cause chain carries revert
    data, or the revert data found is not the sentinel and decodes against
    none of the calls' interfaces, the original failure is raised again,
    the same error value, neither wrapped nor replaced. *)
Theorem resolver_rethrows_original `{Collaborators}
    (parameters : ExecuteParameters) (e : BaseError) (w : World) :
  Forall (fun err => carries_revert_data err = false) (cause_chain e)
  \/ (exists (error : BaseError) (data : Hex),
        walk has_data_property e = Some error
        /\ err_data error = DataValue data
        /\ data <> sentinel
        /\ Forall (fun c => decodes data c = false) (calls parameters)) ->
  fst (execute_catch parameters e w) = Original e.
Proof.
  intros [Hnone | (error & data & Hw & Hdata & Hsent & Hcalls)].
  - now rewrite execute_catch_no_data by now apply no_revert_data_falsy.
  - destruct (String.eqb_spec data "") as [-> | Hne].
    + rewrite execute_catch_no_data; [reflexivity|].
      rewrite Hw. destruct error as [name d cause]. simpl in Hdata.
      now subst d.
    + pose proof (walk_data e error data Hw Hdata Hne) as Htruthy.
      rewrite Hw in Htruthy.
      rewrite (execute_catch_match parameters e w error data Hw Htruthy Hsent).
      now rewrite fold_no_match.
Qed.

Lemma resolver_rethrows_original_witness :
  let C := Fixture.collaborators (Ok true) (Ok "0x01") in
  fst (execute_catch (Fixture.parameters None [Fixture.transfer_a] None)
         Fixture.plain_failure Fixture.empty_world)
  = Original Fixture.plain_failure
  /\ fst (execute_catch
            (Fixture.parameters None
               [Fixture.transfer_a; Fixture.raw_call Fixture.token_b None None]
               None)
            (Fixture.revert_with "0x82b42900") Fixture.empty_world)
     = Original (Fixture.revert_with "0x82b42900").
Proof.
  intros C. split.
  - apply (@resolver_rethrows_original C). left.
    repeat constructor.
  - apply (@resolver_rethrows_original C). right.
    exists (MkBaseError "RpcRequestError" (DataValue "0x82b42900") None),
      "0x82b42900".
    repeat split; try discriminate; repeat constructor.
Defined.

(** C7, as the claim states it, fails: revert data that is the sentinel and
    decodes against no call's interface does not bring the original failure
    back; the mode-not-recognized error is raised in its place. *)
Lemma resolver_rethrow_refuted :
  ~ (forall (C : Collaborators) (parameters : ExecuteParameters)
            (e : BaseError) (w : World),
        Forall (fun err => carries_revert_data err = false) (cause_chain e)
        \/ (exists (error : BaseError) (data : Hex),
              walk has_data_property e = Some error
              /\ err_data error = DataValue data
              /\ Forall (fun c => decodes data c = false) (calls parameters)) ->
        fst (execute_catch parameters e w) = Original e).
Proof.
  intros Hclaim.
  specialize (Hclaim (Fixture.collaborators (Ok true) (Ok "0x01"))
    (Fixture.parameters None [Fixture.transfer_a] None)
    (Fixture.revert_with "0x3c10b94e") Fixture.empty_world).
  assert (FunctionSelectorNotRecognizedError
          = Original (Fixture.revert_with "0x3c10b94e")) as Habs;
    [|discriminate Habs].
  apply Hclaim. right.
  exists (MkBaseError "RpcRequestError" (DataValue "0x3c10b94e") None),
    "0x3c10b94e".
  repeat split. repeat constructor.
Qed.

(** ** The dispatcher *)

Section Dispatcher.

Context `{Collaborators}.

Lemma new_events_app (w w' : World) (evs : list Event) :
  events w' = events w ++ evs -> new_events w w' = evs.
Proof. intros Hev. unfold new_events. rewrite Hev. apply drop_app_length. Qed.

(** The capability check answers from the cache, or asks the remote once and
    stores a returned answer. *)
Lemma capability_hit client parameters w v :
  cache w !! cacheKey client (effective_address parameters)
               (execute_mode (opData parameters)) = Some v ->
  capability client parameters w = (Ok v, w).
Proof. intros Hhit. unfold capability, withCache. now rewrite Hhit. Qed.

Lemma capability_miss client parameters w :
  let address := effective_address parameters in
  let mode := execute_mode (opData parameters) in
  cache w !! cacheKey client address mode = None ->
  capability client parameters w
  = match supportsExecutionMode client address mode with
    | Ok v => (Ok v, store (cacheKey client address mode) v
                       (log (Probe address mode) w))
    | Throw e => (Throw e, log (Probe address mode) w)
    end.
Proof.
  intros address mode Hmiss. unfold capability, withCache. fold address mode.
  rewrite Hmiss. unfold probe.
  now destruct (supportsExecutionMode client address mode).
Qed.

Lemma capability_events client parameters w :
  exists ps,
    events (snd (capability client parameters w)) = events w ++ ps
    /\ (ps = []
        \/ ps = [Probe (effective_address parameters)
                   (execute_mode (opData parameters))]).
Proof.
  destruct (cache w !! cacheKey client (effective_address parameters)
                         (execute_mode (opData parameters))) as [v|] eqn:Hc.
  - rewrite (capability_hit _ _ _ _ Hc). exists []. split; [|now left].
    simpl. now rewrite app_nil_r.
  - rewrite (capability_miss _ _ _ Hc).
    exists [Probe (effective_address parameters)
              (execute_mode (opData parameters))].
    split; [|now right].
    now destruct (supportsExecutionMode _ _ _).
Qed.

Lemma capability_cache client parameters w :
  cache (snd (capability client parameters w)) = cache w
  \/ exists v,
       fst (capability client parameters w) = Ok v
       /\ cache (snd (capability client parameters w))
          = <[cacheKey client (effective_address parameters)
                (execute_mode (opData parameters)) := v]> (cache w).
Proof.
  destruct (cache w !! cacheKey client (effective_address parameters)
                         (execute_mode (opData parameters))) as [v|] eqn:Hc.
  - rewrite (capability_hit _ _ _ _ Hc). now left.
  - rewrite (capability_miss _ _ _ Hc).
    destruct (supportsExecutionMode _ _ _) as [v|e]; [right | now left].
    now exists v.
Qed.

(** The resolver only appends decodings to the log. *)
Lemma execute_catch_events parameters e w :
  exists ds,
    events (snd (execute_catch parameters e w)) = events w ++ ds
    /\ Forall (fun ev => is_Decode ev = true) ds
    /\ cache (snd (execute_catch parameters e w)) = cache w.
Proof.
  destruct (walk has_data_property e) as [error|] eqn:Hw.
  - destruct (when_truthy (data_of (Some error))) as [data|] eqn:Hd.
    + destruct (String.eqb_spec data sentinel) as [-> | Hne].
      * rewrite (execute_catch_sentinel parameters e w error Hw Hd).
        exists []. simpl. now rewrite app_nil_r.
      * rewrite (execute_catch_match parameters e w error data Hw Hd Hne).
        eexists. simpl. split; [reflexivity|]. split; [|reflexivity].
        apply Forall_map. now apply Forall_true.
    + rewrite execute_catch_no_data by now rewrite Hw.
      exists []. simpl. now rewrite app_nil_r.
  - rewrite execute_catch_no_data by now rewrite Hw.
    exists []. simpl. now rewrite app_nil_r.
Qed.

(** [execute], step by step. *)
Lemma execute_unfold client parameters w :
  execute client parameters w
  = match encodeCalls (calls parameters) (opData parameters) with
    | Throw e => (Throw (Original e), w)
    | Ok encodedCalls =>
        match capability client parameters w with
        | (Throw e, w1) => (Throw (Original e), w1)
        | (Ok false, w1) => (Throw ExecuteUnsupportedError, w1)
        | (Ok true, w1) =>
            match encodeFunctionData abi (Some "execute")
                    (Some [JsString (execute_mode (opData parameters));
                           JsString encodedCalls]) with
            | Throw e =>
                let (t, w2) := execute_catch parameters e w1 in (Throw t, w2)
            | Ok data =>
                let request := {| tx_parameters := parameters;
                                  tx_to := address parameters;
                                  tx_data := data |} in
                match sendTransaction client request with
                | Ok hash => (Ok hash, log (Submit request) w1)
                | Throw e =>
                    let (t, w2) :=
                      execute_catch parameters e (log (Submit request) w1) in
                    (Throw t, w2)
                end
            end
        end
    end.
Proof.
  unfold execute, bind, propagate, lift.
  destruct (encodeCalls _ _) as [encodedCalls|e]; [|reflexivity].
  destruct (capability client parameters w) as [[[|]|e] w1]; simpl;
    try reflexivity.
  unfold try_catch, execute_try, bind, lift.
  destruct (encodeFunctionData _ _ _) as [data|e]; [|reflexivity].
  now destruct (sendTransaction _ _).
Qed.

(** The shape of every run's log: at most one probe, then at most one
    submission, then the resolver's decodings. A submission is there only
    after the capability check answered [true], and it goes to
    [parameters.address]. *)
Lemma execute_trace client parameters w :
  exists ps ss ds,
    events (snd (execute client parameters w)) = events w ++ ps ++ ss ++ ds
    /\ (ps = []
        \/ ps = [Probe (effective_address parameters)
                   (execute_mode (opData parameters))])
    /\ (ss = []
        \/ exists data,
             ss = [Submit {| tx_parameters := parameters;
                             tx_to := address parameters;
                             tx_data := data |}]
             /\ fst (capability client parameters w) = Ok true)
    /\ Forall (fun ev => is_Decode ev = true) ds.
Proof.
  rewrite execute_unfold.
  destruct (capability_events client parameters w) as (ps & Hps & Hshape).
  destruct (encodeCalls _ _) as [encodedCalls|e].
  2:{ exists [], [], []. simpl. rewrite app_nil_r. auto. }
  destruct (capability client parameters w) as [[[|]|e] w1]; simpl in Hps.
  - destruct (encodeFunctionData _ _ _) as [data|e].
    + cbv zeta.
      set (request := {| tx_parameters := parameters;
                         tx_to := address parameters; tx_data := data |}).
      destruct (sendTransaction client request) as [hash|e].
      * exists ps, [Submit request], []. unfold log. simpl.
        rewrite Hps, <- app_assoc.
        repeat split; auto. right. now exists data.
      * destruct (execute_catch_events parameters e (log (Submit request) w1))
          as (ds & Hds & Hdec & _).
        destruct (execute_catch parameters e (log (Submit request) w1))
          as [t w2]. unfold log in Hds. simpl in *.
        exists ps, [Submit request], ds. rewrite Hds, Hps.
        rewrite <- !app_assoc. repeat split; auto. right. now exists data.
    + destruct (execute_catch_events parameters e w1) as (ds & Hds & Hdec & _).
      destruct (execute_catch parameters e w1) as [t w2]. simpl in *.
      exists ps, [], ds. rewrite Hds, Hps, <- app_assoc. auto.
  - exists ps, [], []. simpl. rewrite Hps, app_nil_r. auto.
  - exists ps, [], []. simpl. rewrite Hps, app_nil_r. auto.
Qed.

Lemma new_events_In (w w' : World) (evs : list Event) (ev : Event) :
  events w' = events w ++ evs -> In ev evs -> In ev (new_events w w').
Proof. intros Hev Hin. now rewrite (new_events_app _ _ _ Hev). Qed.

(** When the batch is encoded, the capability check answers [true] and the
    [execute] call data is encoded, the transaction is submitted. *)
Lemma execute_submits client parameters w encodedCalls data :
  encodeCalls (calls parameters) (opData parameters) = Ok encodedCalls ->
  fst (capability client parameters w) = Ok true ->
  encodeFunctionData abi (Some "execute")
    (Some [JsString (execute_mode (opData parameters)); JsString encodedCalls])
  = Ok data ->
  In (Submit {| tx_parameters := parameters;
                tx_to := address parameters;
                tx_data := data |})
    (new_events w (snd (execute client parameters w))).
Proof.
  intros Henc Hcap Hdata.
  destruct (capability_events client parameters w) as (ps & Hps & _).
  rewrite execute_unfold, Henc.
  destruct (capability client parameters w) as [r w1]. simpl in Hcap, Hps.
  subst r. rewrite Hdata. cbv zeta.
  set (request := {| tx_parameters := parameters;
                     tx_to := address parameters; tx_data := data |}).
  destruct (sendTransaction client request) as [hash|e].
  - apply (new_events_In w _ (ps ++ [Submit request])).
    + simpl. now rewrite Hps, <- app_assoc.
    + apply in_or_app. right. now left.
  - destruct (execute_catch_events parameters e (log (Submit request) w1))
      as (ds & Hds & _).
    destruct (execute_catch parameters e (log (Submit request) w1)) as [t w2].
    unfold log in Hds. simpl in *.
    apply (new_events_In w _ (ps ++ [Submit request] ++ ds)).
    + now rewrite Hds, Hps, <- !app_assoc.
    + apply in_or_app. right. now left.
Qed.

(** On a cache miss, once the batch is encoded, the remote is asked. *)
Lemma execute_probes client parameters w encodedCalls :
  encodeCalls (calls parameters) (opData parameters) = Ok encodedCalls ->
  cache w !! cacheKey client (effective_address parameters)
               (execute_mode (opData parameters)) = None ->
  In (Probe (effective_address parameters) (execute_mode (opData parameters)))
    (new_events w (snd (execute client parameters w))).
Proof.
  intros Henc Hmiss.
  rewrite execute_unfold, Henc, (capability_miss _ _ _ Hmiss).
  set (pr := Probe _ _).
  assert (forall e w1,
             events w1 = events w ++ [pr] ->
             In pr (new_events w (snd (let (t, w2) := execute_catch parameters e w1
                                       in (@Throw Thrown Hex t, w2))))) as Hcatch.
  { intros e w1 Hw1.
    destruct (execute_catch_events parameters e w1) as (ds & Hds & _).
    destruct (execute_catch parameters e w1) as [t w2]. simpl in *.
    apply (new_events_In w _ ([pr] ++ ds)); [|now left].
    now rewrite Hds, Hw1, <- app_assoc. }
  destruct (supportsExecutionMode _ _ _) as [[|]|e].
  - destruct (encodeFunctionData _ _ _) as [data|e];
      [|now apply Hcatch].
    cbv zeta.
    set (request := {| tx_parameters := parameters;
                       tx_to := address parameters; tx_data := data |}).
    destruct (sendTransaction client request) as [hash|e].
    + apply (new_events_In w _ [pr; Submit request]); [|now left].
      simpl. now rewrite <- app_assoc.
    + destruct (execute_catch_events parameters e
                  (log (Submit request)
                     (store (cacheKey client (effective_address parameters)
                               (execute_mode (opData parameters))) true
                        (log pr w))))
        as (ds & Hds & _).
      destruct (execute_catch parameters e _) as [t w2]. simpl in *.
      apply (new_events_In w _ ([pr; Submit request] ++ ds)); [|now left].
      rewrite Hds. now rewrite <- !app_assoc.
  - apply (new_events_In w _ [pr]); [reflexivity | now left].
  - apply (new_events_In w _ [pr]); [reflexivity | now left].
Qed.

(** A submission failure reaches the caller as the resolver's verdict. *)
Lemma execute_submission_failure client parameters w encodedCalls w1 data e :
  encodeCalls (calls parameters) (opData parameters) = Ok encodedCalls ->
  capability client parameters w = (Ok true, w1) ->
  encodeFunctionData abi (Some "execute")
    (Some [JsString (execute_mode (opData parameters)); JsString encodedCalls])
  = Ok data ->
  sendTransaction client {| tx_parameters := parameters;
                            tx_to := address parameters;
                            tx_data := data |} = Throw e ->
  fst (execute client parameters w)
  = Throw (fst (execute_catch parameters e
                  (log (Submit {| tx_parameters := parameters;
                                  tx_to := address parameters;
                                  tx_data := data |}) w1))).
Proof.
  intros Henc Hcap Hdata Hsend.
  rewrite execute_unfold, Henc, Hcap, Hdata. cbv zeta. rewrite Hsend.
  now destruct (execute_catch _ _ _).
Qed.

End Dispatcher.

(** C2, as the code has it. In every run of [execute], the capability probe
    is made for the effective target (the contract address of the first
    entry of the authorization list when it has one, the explicit [address]
    parameter otherwise) and for the chosen mode, while the transaction is
    submitted to the explicit [address] parameter; the two targets are the
    same when the authorization list gives no contract address. The probe
    is made on every cache miss once the batch is encoded, and the
    submission whenever the check answers [true] and the call data is
    encoded. *)
Theorem execute_targets `{Collaborators}
    (client : Client) (parameters : ExecuteParameters) (w : World) :
  Forall (fun ev =>
            match ev with
            | Probe a mode =>
                a = effective_address parameters
                /\ mode = execute_mode (opData parameters)
            | Submit request => tx_to request = address parameters
            | Decode _ _ => True
            end)
    (new_events w (snd (execute client parameters w)))
  /\ (forall authorization rest a,
        authorizationList parameters = Some (authorization :: rest) ->
        contractAddress authorization = Some a ->
        effective_address parameters = a)
  /\ (authorizationList parameters = None
      \/ authorizationList parameters = Some []
      \/ (exists authorization rest,
            authorizationList parameters = Some (authorization :: rest)
            /\ contractAddress authorization = None) ->
      effective_address parameters = address parameters)
  /\ (forall encodedCalls,
        encodeCalls (calls parameters) (opData parameters) = Ok encodedCalls ->
        cache w !! cacheKey client (effective_address parameters)
                     (execute_mode (opData parameters)) = None ->
        In (Probe (effective_address parameters)
              (execute_mode (opData parameters)))
          (new_events w (snd (execute client parameters w))))
  /\ (forall encodedCalls data,
        encodeCalls (calls parameters) (opData parameters) = Ok encodedCalls ->
        fst (capability client parameters w) = Ok true ->
        encodeFunctionData abi (Some "execute")
          (Some [JsString (execute_mode (opData parameters));
                 JsString encodedCalls]) = Ok data ->
        In (Submit {| tx_parameters := parameters;
                      tx_to := address parameters;
                      tx_data := data |})
          (new_events w (snd (execute client parameters w)))).
Proof.
  split; [|split; [|split; [|split;
    [exact (execute_probes client parameters w)
    |exact (execute_submits client parameters w)]]]].
  - destruct (execute_trace client parameters w)
      as (ps & ss & ds & Hev & Hps & Hss & Hds).
    rewrite (new_events_app _ _ _ Hev).
    rewrite !Forall_app. repeat split.
    + destruct Hps as [-> | ->]; repeat constructor.
    + destruct Hss as [-> | (data & -> & _)]; repeat constructor.
    + eapply Forall_impl; [exact Hds|]. now intros [| |].
  - intros authorization rest a Hlist Ha. unfold effective_address.
    now rewrite Hlist, Ha.
  - unfold effective_address.
    intros [-> | [-> | (authorization & rest & -> & ->)]]; reflexivity.
Qed.

(** C2, as the claim states it, fails: with a delegated contract address in
    the authorization list, the probe asks the delegate and the transaction
    goes to the explicit address. *)
Lemma execute_submission_target_refuted :
  ~ (forall (C : Collaborators) (client : Client)
            (parameters : ExecuteParameters) (w : World)
            (request : TransactionRequest),
        In (Submit request) (new_events w (snd (execute client parameters w))) ->
        tx_to request = effective_address parameters).
Proof.
  intros Hclaim.
  pose (p := Fixture.parameters
               (Some [{| contractAddress := Some Fixture.delegate;
                         auth_chainId := 1; auth_nonce := 0 |}])
               [Fixture.transfer_a] None).
  specialize (Hclaim (Fixture.collaborators (Ok true) (Ok "0x01"))
                Fixture.client p Fixture.empty_world).
  assert (exists request,
             In (Submit request)
               (new_events Fixture.empty_world
                  (snd (@execute (Fixture.collaborators (Ok true) (Ok "0x01"))
                          Fixture.client p Fixture.empty_world)))
             /\ tx_to request = Fixture.eoa) as (request & Hin & Hto).
  { vm_compute. eexists. split; [right; left; reflexivity | reflexivity]. }
  apply Hclaim in Hin. rewrite Hto in Hin. discriminate Hin.
Qed.

(** C3, as the code has it. The chosen mode is "with auxiliary data" exactly
    when [opData] is supplied and is not the empty string, and "default"
    otherwise; a supplied [Hex] always selects "with auxiliary data", the
    empty bytes ["0x"] included. *)
Theorem execute_mode_truthy `{Collaborators} (opData : option Hex) :
  executionMode_opData <> executionMode_default ->
  (execute_mode opData = executionMode_opData
   <-> exists o, opData = Some o /\ o <> "")
  /\ (execute_mode opData = executionMode_default
      <-> opData = None \/ opData = Some "")
  /\ ((exists o, opData = Some o /\ is_Hex o = true) ->
      execute_mode opData = executionMode_opData).
Proof.
  intros Hdistinct. unfold execute_mode.
  destruct (when_truthy opData) as [o|] eqn:Ht.
  - apply when_truthy_Some in Ht as [-> Hne]. repeat split; eauto.
    + intros Heq. congruence.
    + intros [Hnone | [= ->]]; congruence.
  - apply when_truthy_None in Ht. repeat split; auto.
    + intros Heq. congruence.
    + intros (o & -> & Hne). destruct Ht as [|[= ->]]; congruence.
    + intros (o & -> & Hhex). destruct Ht as [|[= ->]]; discriminate.
Qed.

Lemma execute_mode_truthy_witness :
  let C := Fixture.collaborators (Ok true) (Ok "0x01") in
  (execute_mode (Some empty_bytes) = executionMode_opData
   <-> exists o, Some empty_bytes = Some o /\ o <> "")
  /\ (execute_mode (Some empty_bytes) = executionMode_default
      <-> Some empty_bytes = None \/ Some empty_bytes = Some "")
  /\ ((exists o, Some empty_bytes = Some o /\ is_Hex o = true) ->
      execute_mode (Some empty_bytes) = executionMode_opData).
Proof.
  intros C. apply (@execute_mode_truthy C (Some empty_bytes)). discriminate.
Defined.

(** C3, as the claim states it, fails: for an [opData] that is present but
    empty bytes, the chosen mode is not "default". *)
Lemma execute_mode_empty_bytes_refuted :
  ~ (forall C : Collaborators,
        executionMode_opData <> executionMode_default ->
        execute_mode (Some empty_bytes) = executionMode_default).
Proof.
  intros Hclaim.
  assert (@execute_mode (Fixture.collaborators (Ok true) (Ok "0x01"))
            (Some empty_bytes)
          = "0x0100000000000000000000000000000000000000000000000000000000000000")
    as Hmode.
  { apply (Hclaim (Fixture.collaborators (Ok true) (Ok "0x01"))).
    discriminate. }
  vm_compute in Hmode. discriminate Hmode.
Qed.

(** C5. In every run of [execute] for which the capability check answers
    that the target does not support the chosen mode, nothing is submitted,
    and the error raised is "execution mode unsupported" (the check is
    reached once the batch is encoded). In every run, a submission comes
    after the capability check: the log is the probe, if one was made, then
    the submission, there only when the check answered [true], then the
    resolver's decodings. *)
Theorem execute_capability_gate `{Collaborators}
    (client : Client) (parameters : ExecuteParameters) (w : World) :
  (fst (capability client parameters w) = Ok false ->
   Forall (fun ev => is_Submit ev = false)
     (new_events w (snd (execute client parameters w)))
   /\ fst (execute client parameters w)
      = match encodeCalls (calls parameters) (opData parameters) with
        | Ok _ => Throw ExecuteUnsupportedError
        | Throw e => Throw (Original e)
        end)
  /\ exists ps ss ds,
       new_events w (snd (execute client parameters w)) = ps ++ ss ++ ds
       /\ Forall (fun ev => is_Probe ev = true) ps
       /\ (ss = []
           \/ exists request,
                ss = [Submit request]
                /\ fst (capability client parameters w) = Ok true)
       /\ Forall (fun ev => is_Decode ev = true) ds.
Proof.
  split.
  - intros Hcap. rewrite execute_unfold.
    destruct (encodeCalls _ _) as [encodedCalls|e].
    + destruct (capability_events client parameters w) as (ps & Hps & Hshape).
      destruct (capability client parameters w) as [r w1].
      simpl in Hcap, Hps. subst r. simpl.
      rewrite (new_events_app _ _ _ Hps).
      split; [|reflexivity].
      destruct Hshape as [-> | ->]; repeat constructor.
    + simpl. split; [|reflexivity].
      rewrite (new_events_app w w []) by now rewrite app_nil_r.
      constructor.
  - destruct (execute_trace client parameters w)
      as (ps & ss & ds & Hev & Hps & Hss & Hds).
    exists ps, ss, ds. rewrite (new_events_app _ _ _ Hev).
    repeat split; auto.
    + destruct Hps as [-> | ->]; repeat constructor.
    + destruct Hss as [-> | (data & -> & Hcap)]; eauto.
Qed.

(** On the fixture: the remote answers [false], the run logs the probe only
    and raises the unsupported-mode error; the answer is cached. *)
Example execute_unsupported_fixture :
  let C := Fixture.collaborators (Ok false) (Ok "0x01") in
  let run := execute Fixture.client
               (Fixture.parameters None [Fixture.transfer_a] None)
               Fixture.empty_world in
  fst run = Throw ExecuteUnsupportedError
  /\ events (snd run) = [Probe Fixture.eoa executionMode_default]
  /\ cache (snd run)
     !! cacheKey Fixture.client Fixture.eoa executionMode_default = Some false.
Proof. vm_compute. auto. Qed.

(** ** The pipeline on the fixture *)

(** The example of the specification: two raw calls, no [opData]. *)
Example encodeCalls_entries_fixture :
  let C := Fixture.collaborators (Ok true) (Ok "0x01") in
  map_result encodeCall
    [Fixture.raw_call Fixture.token_a (Some "0xdead") None;
     Fixture.raw_call Fixture.token_b None (Some 100%Z)]
  = Ok [ {| entry_data := "0xdead"; entry_value := 0;
            entry_target := Fixture.token_a |};
         {| entry_data := "0x"; entry_value := 100;
            entry_target := Fixture.token_b |} ]
  /\ execute_mode None = executionMode_default.
Proof. split; reflexivity. Qed.

(** A run that succeeds: probe, then submission; the answer is cached, and a
    second run does not ask again. *)
Example execute_success_fixture :
  let C := Fixture.collaborators (Ok true) (Ok "0xabc1") in
  let p := Fixture.parameters None [Fixture.transfer_a] None in
  let run1 := execute Fixture.client p Fixture.empty_world in
  let run2 := execute Fixture.client p (snd run1) in
  fst run1 = Ok "0xabc1"
  /\ map is_Probe (events (snd run1)) = [true; false]
  /\ fst run2 = Ok "0xabc1"
  /\ map is_Probe (new_events (snd run1) (snd run2)) = [false].
Proof. vm_compute. auto. Qed.

(** A run whose submission reverts with data that two calls decode: the
    error names the second call; the log is probe, submission, two
    decodings. *)
Example execute_two_matches_fixture :
  let C := Fixture.collaborators (Ok true)
             (Throw (Fixture.revert_with "0xf4d678b8")) in
  let run := execute Fixture.client
               (Fixture.parameters None
                  [Fixture.transfer_a; Fixture.transfer_b] None)
               Fixture.empty_world in
  fst run
  = Throw (ContractError
             (MkBaseError "RpcRequestError" (DataValue "0xf4d678b8") None)
             (Some Fixture.token_abi) Fixture.token_b
             (Some [JsString Fixture.eoa; JsBigInt 2])
             "/experimental/erc7821/execute" (Some "transfer"))
  /\ map is_Decode (events (snd run)) = [false; false; true; true].
Proof. vm_compute. auto. Qed.

(** * Further properties *)

(** ** The encoder: failures, defaults, and the mode *)

Lemma map_result_Throw {E A B} (f : A -> result E B) (l : list A) (e : E) :
  map_result f l = Throw e <->
  exists before x after,
    l = before ++ x :: after
    /\ Forall (fun y => exists b, f y = Ok b) before
    /\ f x = Throw e.
Proof.
  split.
  - induction l as [|x l IH]; simpl; [discriminate|].
    destruct (f x) as [b|e'] eqn:Hx; simpl.
    + destruct (map_result f l) as [ys|e'] eqn:Hl; simpl; [discriminate|].
      intros [= ->].
      destruct (IH eq_refl) as (before & z & after & -> & Hb & Hz).
      exists (x :: before), z, after. repeat split; auto.
      constructor; eauto.
    + intros [= ->]. exists [], x, l. repeat split; auto.
  - intros (before & x & after & -> & Hb & Hx).
    induction Hb as [|y before [b Hy] _ IH]; simpl.
    + now rewrite Hx.
    + now rewrite Hy, IH.
Qed.

Section EncoderFailures.

Context `{Collaborators}.

(** Only a call with an interface can make the callback throw. *)
Lemma encodeCall_Throw (call : Call) (e : BaseError) :
  encodeCall call = Throw e <->
  exists a,
    call_abi call = Some a
    /\ encodeFunctionData a (call_functionName call) (call_args call) = Throw e.
Proof.
  unfold encodeCall. destruct (call_abi call) as [a|]; simpl.
  - destruct (encodeFunctionData a _ _) as [d|e'] eqn:Hd; simpl.
    + split; [discriminate|]. intros (a' & [= <-] & Ha). congruence.
    + split.
      * intros [= ->]. now exists a.
      * intros (a' & [= <-] & Ha). congruence.
  - split; [discriminate|]. now intros (a & Ha & _).
Qed.

Lemma encodeCalls_unfold (calls_ : list Call) (opData : option Hex) :
  encodeCalls calls_ opData
  = rbind (map_result encodeCall calls_) (fun entries =>
      AbiParameters_encode
        (AbiParameters_from
           (batch_signatures (bool_decide (is_Some (when_truthy opData)))))
        (batch_values entries (when_truthy opData))).
Proof.
  unfold encodeCalls, batch_signatures, batch_values.
  now destruct (when_truthy opData).
Qed.

Lemma same_entry_encodeCall (c1 c2 : Call) :
  same_entry c1 c2 -> encodeCall c1 = encodeCall c2.
Proof.
  intros (Hto & Habi & Hvalue & Hrest). unfold encodeCall.
  rewrite <- Habi, <- Hto.
  destruct (call_abi c1) as [a|].
  - destruct Hrest as [-> ->].
    destruct (encodeFunctionData a _ _); simpl; [|reflexivity].
    destruct (call_value c1), (call_value c2); simpl in Hvalue; now subst.
  - simpl.
    destruct (call_value c1), (call_value c2), (call_data c1), (call_data c2);
      simpl in *; now subst.
Qed.

End EncoderFailures.

(** X1. A call whose interface encoding fails stops [execute] before anything
    else happens: the error of the first such call in list order leaves
    [execute] as it is, and the world is untouched (no capability query, no
    cache write, no submission). *)
Theorem execute_encoding_failure_first `{Collaborators}
    (client : Client) (parameters : ExecuteParameters) (w : World)
    (before after : list Call) (call : Call) (a : Abi) (e : BaseError) :
  calls parameters = before ++ call :: after ->
  Forall (fun c => exists entry, encodeCall c = Ok entry) before ->
  call_abi call = Some a ->
  encodeFunctionData a (call_functionName call) (call_args call) = Throw e ->
  execute client parameters w = (Throw (Original e), w).
Proof.
  intros Hcalls Hbefore Habi Hcall.
  assert (encodeCalls (calls parameters) (opData parameters) = Throw e) as Henc.
  { rewrite encodeCalls_unfold.
    assert (map_result encodeCall (calls parameters) = Throw e) as ->;
      [|reflexivity].
    apply map_result_Throw. exists before, call, after.
    repeat split; auto. apply encodeCall_Throw. now exists a. }
  unfold execute, bind, propagate, lift. now rewrite Henc.
Qed.

Lemma execute_encoding_failure_first_witness :
  let C := Fixture.collaborators (Ok true) (Ok "0x01") in
  execute Fixture.client
    (Fixture.parameters None
       [Fixture.transfer_a; Fixture2.mint_a; Fixture.transfer_b] None)
    Fixture.empty_world
  = (Throw (Original (Fixture.not_found "AbiFunctionNotFoundError")),
     Fixture.empty_world).
Proof.
  intros C.
  apply (@execute_encoding_failure_first C Fixture.client
           (Fixture.parameters None
              [Fixture.transfer_a; Fixture2.mint_a; Fixture.transfer_b] None)
           Fixture.empty_world [Fixture.transfer_a] [Fixture.transfer_b]
           Fixture2.mint_a Fixture.token_abi).
  - reflexivity.
  - constructor; [|constructor]. eexists. vm_compute. reflexivity.
  - reflexivity.
  - reflexivity.
Defined.

(** X2. [encodeCalls] throws in two ways only: the interface encoding of some
    call throws, and then the error is that of the first such call in list
    order (calls without an interface never throw); or every entry is built
    and the ABI encoder throws on the batch. *)
Theorem encodeCalls_failure_iff `{Collaborators}
    (calls_ : list Call) (opData : option Hex) (e : BaseError) :
  encodeCalls calls_ opData = Throw e <->
  (exists before call after a,
      calls_ = before ++ call :: after
      /\ Forall (fun c => exists entry, encodeCall c = Ok entry) before
      /\ call_abi call = Some a
      /\ encodeFunctionData a (call_functionName call) (call_args call)
         = Throw e)
  \/ (exists entries,
        Forall2 (fun c entry => encodeCall c = Ok entry) calls_ entries
        /\ AbiParameters_encode
             (AbiParameters_from
                (batch_signatures (bool_decide (is_Some (when_truthy opData)))))
             (batch_values entries (when_truthy opData)) = Throw e).
Proof.
  rewrite encodeCalls_unfold.
  destruct (map_result encodeCall calls_) as [entries|e'] eqn:Hmap; simpl.
  - split.
    + intros Henc. right. exists entries. split; [|assumption].
      now apply map_result_Ok.
    + intros [(before & call & after & a & Hl & Hb & Ha & Hc)
             | (entries' & Hall & Henc)].
      * assert (map_result encodeCall calls_ = Throw e) as Habs.
        { apply map_result_Throw. exists before, call, after.
          repeat split; auto. apply encodeCall_Throw. now exists a. }
        congruence.
      * apply map_result_Ok in Hall. congruence.
  - split.
    + intros [= ->]. left.
      apply map_result_Throw in Hmap
        as (before & call & after & Hl & Hb & Hc).
      apply encodeCall_Throw in Hc as (a & Ha & Hc).
      now exists before, call, after, a.
    + intros [(before & call & after & a & Hl & Hb & Ha & Hc)
             | (entries' & Hall & Henc)].
      * assert (map_result encodeCall calls_ = Throw e) as Habs.
        { apply map_result_Throw. exists before, call, after.
          repeat split; auto. apply encodeCall_Throw. now exists a. }
        congruence.
      * apply map_result_Ok in Hall. congruence.
Qed.

(** X3. [encodeCalls] cannot tell a missing [value] from [0n], a missing
    [data] from ["0x"] on a call without an interface, or any [data] at all
    on a call with one; nor an [opData] that is the empty string from a
    missing one. Call lists alike up to these give the same result. *)
Theorem encodeCalls_defaults `{Collaborators}
    (calls1 calls2 : list Call) (opData1 opData2 : option Hex) :
  Forall2 same_entry calls1 calls2 ->
  when_truthy opData1 = when_truthy opData2 ->
  encodeCalls calls1 opData1 = encodeCalls calls2 opData2.
Proof.
  intros Hcalls Hop. rewrite !encodeCalls_unfold, Hop.
  replace (map_result encodeCall calls2) with (map_result encodeCall calls1);
    [reflexivity|].
  induction Hcalls as [|c1 c2 l1 l2 Hc _ IH]; simpl; [reflexivity|].
  now rewrite (same_entry_encodeCall c1 c2 Hc), IH.
Qed.

Lemma encodeCalls_defaults_witness :
  let C := Fixture.collaborators (Ok true) (Ok "0x01") in
  encodeCalls
    [Fixture.raw_call Fixture.token_b None None;
     {| call_to := Fixture.token_a; call_abi := Some Fixture.token_abi;
        call_functionName := Some "transfer";
        call_args := Some [JsString Fixture.eoa; JsBigInt 1];
        call_data := Some "0xdeadbeef"; call_value := None |}]
    (Some "")
  = encodeCalls
      [Fixture.raw_call Fixture.token_b (Some "0x") (Some 0%Z);
       Fixture.transfer_a]
      None.
Proof.
  intros C. apply (@encodeCalls_defaults C).
  - repeat constructor.
  - reflexivity.
Defined.

(** X4. The mode and the batch agree: whenever [encodeCalls] returns, the
    batch it encoded has the trailing [bytes opData] field exactly when the
    mode [execute] chooses for the same [opData] is [executionMode.opData],
    and the field holds that [opData]. *)
Theorem encodeCalls_mode_agrees `{Collaborators}
    (calls_ : list Call) (opData : option Hex) (h : Hex) :
  executionMode_opData <> executionMode_default ->
  encodeCalls calls_ opData = Ok h ->
  exists (entries : list EncodedCall) (trailing : bool),
    Forall2 (fun c entry => encodeCall c = Ok entry) calls_ entries
    /\ AbiParameters_encode
         (AbiParameters_from (batch_signatures trailing))
         (batch_values entries (if trailing then opData else None)) = Ok h
    /\ (trailing = true <-> execute_mode opData = executionMode_opData).
Proof.
  intros Hdistinct Henc. rewrite encodeCalls_unfold in Henc.
  destruct (map_result encodeCall calls_) as [entries|e] eqn:Hmap;
    [|discriminate].
  apply map_result_Ok in Hmap. simpl in Henc.
  exists entries, (bool_decide (is_Some (when_truthy opData))).
  split; [assumption|]. unfold execute_mode.
  destruct (when_truthy opData) as [o|] eqn:Ht.
  - apply when_truthy_Some in Ht as [-> _]. split; [exact Henc|].
    split; reflexivity.
  - split; [exact Henc|]. split; [discriminate | congruence].
Qed.

Lemma encodeCalls_mode_agrees_witness :
  let C := Fixture.collaborators (Ok true) (Ok "0x01") in
  exists (entries : list EncodedCall) (trailing : bool),
    Forall2 (fun c entry => encodeCall c = Ok entry)
      [Fixture.transfer_a] entries
    /\ AbiParameters_encode
         (AbiParameters_from (batch_signatures trailing))
         (batch_values entries (if trailing then Some "0x" else None))
       = Ok "0x100000000000000000000000000000000000000aa0a9059cbb70997970c51812dc3a010c7d01b50e0d17dc79c8"
    /\ (trailing = true <-> execute_mode (Some "0x") = executionMode_opData).
Proof.
  intros C.
  apply (@encodeCalls_mode_agrees C [Fixture.transfer_a] (Some "0x")).
  - discriminate.
  - vm_compute. reflexivity.
Defined.

(** ** The resolver: what it can raise *)

Section ResolverVerdicts.

Context `{Collaborators}.

(** A call the loop keeps is a call of the list that decodes the data. *)
Lemma fold_match_sound data cs matched call :
  fold_left (matched_after data) cs matched = Some call ->
  matched = Some call \/ (In call cs /\ decodes data call = true).
Proof.
  revert matched. induction cs as [|c rest IH]; intros matched; simpl;
    [auto|].
  intros Hfold. apply IH in Hfold as [Hm | [Hin Hd]]; [|now auto].
  unfold matched_after in Hm. destruct (decodes data c) eqn:Hc; [|auto].
  injection Hm as ->. auto.
Qed.

(** The three ways through the [catch] block. *)
Lemma execute_catch_cases parameters e w :
  (when_truthy (data_of (walk has_data_property e)) = None
   /\ execute_catch parameters e w = (Original e, w))
  \/ (exists error,
        walk has_data_property e = Some error
        /\ when_truthy (data_of (Some error)) = Some sentinel
        /\ execute_catch parameters e w
           = (FunctionSelectorNotRecognizedError, w))
  \/ (exists error data,
        walk has_data_property e = Some error
        /\ when_truthy (data_of (Some error)) = Some data
        /\ data <> sentinel
        /\ fst (execute_catch parameters e w)
           = match fold_left (matched_after data) (calls parameters) None with
             | Some matched => contract_error_for error matched
             | None => Original e
             end).
Proof.
  destruct (when_truthy (data_of (walk has_data_property e))) as [data|] eqn:Hd.
  - destruct (walk has_data_property e) as [error|] eqn:Hw; [|discriminate].
    destruct (String.eqb_spec data sentinel) as [-> | Hne].
    + right. left. exists error. repeat split; auto.
      exact (execute_catch_sentinel parameters e w error Hw Hd).
    + right. right. exists error, data. repeat split; auto.
      now rewrite (execute_catch_match parameters e w error data Hw Hd Hne).
  - left. split; [reflexivity|]. now apply execute_catch_no_data.
Qed.

Lemma walk_chain (e error : BaseError) (pre post : list BaseError) :
  cause_chain e = pre ++ error :: post ->
  Forall (fun err => has_data_property err = false) pre ->
  has_data_property error = true ->
  walk has_data_property e = Some error.
Proof.
  revert pre.
  induction e as [name data | name data cause IH] using BaseError_cause_ind;
    intros pre Hchain Hpre Herror.
  - destruct pre as [|x [|y pre]]; simpl in Hchain; try discriminate.
    injection Hchain as <- <-. simpl. now rewrite Herror.
  - destruct pre as [|x pre].
    + simpl in Hchain. injection Hchain as <- _. simpl. now rewrite Herror.
    + simpl in Hchain. injection Hchain as <- Hrest.
      inversion Hpre as [|? ? Hx Hpre']; subst.
      simpl. unfold has_data_property in Hx at 1. simpl in Hx.
      change (has_data_property (MkBaseError name data (Some cause)))
        with (match data with NoData => false | _ => true end).
      rewrite Hx. now apply (IH pre).
Qed.

End ResolverVerdicts.

(** X8. A contextualized error always names a call of the list: when the
    resolver raises one, its target, interface, function name and arguments
    are those of some call of [parameters.calls] that declares an interface
    which decodes the revert data; its cause is the error of the chain that
    held the data, and the data is not the sentinel. *)
Theorem resolver_contract_error_sound `{Collaborators}
    (parameters : ExecuteParameters) (e : BaseError) (w : World)
    (cause : BaseError) (a : option Abi) (to : Address)
    (args : option (list JsValue)) (docsPath : string)
    (functionName : option string) :
  fst (execute_catch parameters e w)
  = ContractError cause a to args docsPath functionName ->
  exists (call : Call) (data : Hex),
    In call (calls parameters)
    /\ is_Some (call_abi call)
    /\ decodes data call = true
    /\ a = call_abi call /\ to = call_to call /\ args = call_args call
    /\ functionName = call_functionName call
    /\ docsPath = "/experimental/erc7821/execute"
    /\ walk has_data_property e = Some cause
    /\ err_data cause = DataValue data
    /\ data <> "" /\ data <> sentinel.
Proof.
  intros Hraised.
  destruct (execute_catch_cases parameters e w)
    as [[_ Hc] | [(error & _ & _ & Hc) | (error & data & Hw & Hd & Hne & Hc)]].
  - rewrite Hc in Hraised. discriminate.
  - rewrite Hc in Hraised. discriminate.
  - rewrite Hc in Hraised.
    destruct (fold_left _ _ _) as [matched|] eqn:Hfold; [|discriminate].
    apply fold_match_sound in Hfold as [? | [Hin Hdec]]; [discriminate|].
    injection Hraised as <- <- <- <- <- <-.
    exists matched, data. apply when_truthy_Some in Hd as [Hdata Htruthy].
    repeat split; auto.
    + unfold decodes in Hdec. now destruct (call_abi matched).
    + destruct error as [name [| |d] c]; simpl in *; congruence.
Qed.

Lemma resolver_contract_error_sound_witness :
  let C := Fixture.collaborators (Ok true) (Ok "0x01") in
  exists (call : Call) (data : Hex),
    In call [Fixture.raw_call Fixture.token_b None None; Fixture.transfer_guarded;
             Fixture.transfer_b]
    /\ is_Some (call_abi call)
    /\ decodes data call = true
    /\ Some Fixture.guarded_abi = call_abi call
    /\ Fixture.token_a = call_to call
    /\ Some [JsString Fixture.eoa; JsBigInt 3] = call_args call
    /\ Some "transfer" = call_functionName call
    /\ "/experimental/erc7821/execute" = "/experimental/erc7821/execute"
    /\ walk has_data_property (Fixture.revert_with "0x82b42900")
       = Some (MkBaseError "RpcRequestError" (DataValue "0x82b42900") None)
    /\ err_data (MkBaseError "RpcRequestError" (DataValue "0x82b42900") None)
       = DataValue data
    /\ data <> "" /\ data <> sentinel.
Proof.
  intros C.
  apply (@resolver_contract_error_sound C
           (Fixture.parameters None
              [Fixture.raw_call Fixture.token_b None None;
               Fixture.transfer_guarded; Fixture.transfer_b] None)
           (Fixture.revert_with "0x82b42900") Fixture.empty_world).
  reflexivity.
Defined.

(** X9. The resolver's verdict, both ways. The original failure comes back
    exactly when the error found by the walk has no non-empty [data], or its
    data is not the sentinel and no call's interface decodes it; the
    mode-not-recognized error is raised exactly when that data is the
    sentinel. *)
Theorem resolver_verdict_iff `{Collaborators}
    (parameters : ExecuteParameters) (e : BaseError) (w : World) :
  (fst (execute_catch parameters e w) = Original e
   <-> when_truthy (data_of (walk has_data_property e)) = None
       \/ exists data,
            when_truthy (data_of (walk has_data_property e)) = Some data
            /\ data <> sentinel
            /\ Forall (fun c => decodes data c = false) (calls parameters))
  /\ (fst (execute_catch parameters e w) = FunctionSelectorNotRecognizedError
      <-> when_truthy (data_of (walk has_data_property e)) = Some sentinel).
Proof.
  destruct (execute_catch_cases parameters e w)
    as [[Hd Hc] | [(error & Hw & Hd & Hc) | (error & data & Hw & Hd & Hne & Hc)]].
  - rewrite Hc, Hd. simpl. split; split; auto; discriminate.
  - rewrite Hc, Hw, Hd. simpl. split; split; auto; try discriminate.
    intros [Habs | (data & [= <-] & Hne & _)]; [discriminate | congruence].
  - rewrite Hc, Hw, Hd. split; split.
    + intros Hfold. right. exists data. repeat split; auto.
      apply fold_match_iff.
      now destruct (fold_left (matched_after data) (calls parameters) None).
    + intros [Habs | (data' & [= <-] & _ & Hnone)]; [discriminate|].
      now rewrite fold_no_match.
    + destruct (fold_left _ _ _); discriminate.
    + intros [= ->]. congruence.
Qed.

(** X10. The walk stops at the first error of the chain that has a [data]
    property, whatever its value: when that value is [undefined] or the
    empty string, the original failure is raised again and nothing is
    decoded, even if a deeper cause carries revert data. *)
Theorem resolver_data_property_shadows `{Collaborators}
    (parameters : ExecuteParameters) (e error : BaseError) (w : World)
    (pre post : list BaseError) :
  cause_chain e = pre ++ error :: post ->
  Forall (fun err => has_data_property err = false) pre ->
  has_data_property error = true ->
  carries_revert_data error = false ->
  execute_catch parameters e w = (Original e, w).
Proof.
  intros Hchain Hpre Hprop Hdata.
  apply execute_catch_no_data.
  rewrite (walk_chain e error pre post Hchain Hpre Hprop).
  unfold carries_revert_data in Hdata.
  now destruct (when_truthy (data_of (Some error))).
Qed.

Lemma resolver_data_property_shadows_witness :
  let C := Fixture.collaborators (Ok true) (Ok "0x01") in
  execute_catch (Fixture.parameters None [Fixture.transfer_a] None)
    (Fixture2.shadowed_failure "0xf4d678b8") Fixture.empty_world
  = (Original (Fixture2.shadowed_failure "0xf4d678b8"), Fixture.empty_world)
  /\ decodes "0xf4d678b8" Fixture.transfer_a = true.
Proof.
  intros C. split; [|reflexivity].
  apply (@resolver_data_property_shadows C
           (Fixture.parameters None [Fixture.transfer_a] None)
           (Fixture2.shadowed_failure "0xf4d678b8")
           (MkBaseError "RpcRequestError" DataUndefined
              (Some (MkBaseError "ExecutionRevertedError"
                       (DataValue "0xf4d678b8") None)))
           Fixture.empty_world
           [Fixture2.shadowed_failure "0xf4d678b8"]
           [MkBaseError "ExecutionRevertedError" (DataValue "0xf4d678b8") None]).
  - reflexivity.
  - repeat constructor.
  - reflexivity.
  - reflexivity.
Defined.

(** ** The dispatcher: outcomes *)

Section Outcomes.

Context `{Collaborators}.

(** The [catch] block never raises the unsupported-mode error. *)
Lemma execute_catch_not_unsupported parameters e w :
  fst (execute_catch parameters e w) <> ExecuteUnsupportedError.
Proof.
  destruct (execute_catch_cases parameters e w)
    as [[_ Hc] | [(error & _ & _ & Hc) | (error & data & _ & _ & _ & Hc)]];
    rewrite Hc; try discriminate.
  destruct (fold_left _ _ _); discriminate.
Qed.

End Outcomes.

(** X5. [execute] returns a transaction hash exactly when the batch is
    encoded, the capability check answers [true], the call data of
    [execute(mode, encodedCalls)] is encoded, and [sendTransaction] returns
    that hash for the request that carries the caller's parameters unchanged,
    [to] the explicit address and that call data. *)
Theorem execute_returns_iff `{Collaborators}
    (client : Client) (parameters : ExecuteParameters) (w : World)
    (hash : Hex) :
  fst (execute client parameters w) = Ok hash
  <-> exists encodedCalls data,
        encodeCalls (calls parameters) (opData parameters) = Ok encodedCalls
        /\ fst (capability client parameters w) = Ok true
        /\ encodeFunctionData abi (Some "execute")
             (Some [JsString (execute_mode (opData parameters));
                    JsString encodedCalls]) = Ok data
        /\ sendTransaction client {| tx_parameters := parameters;
                                     tx_to := address parameters;
                                     tx_data := data |} = Ok hash.
Proof.
  rewrite execute_unfold. split.
  - destruct (encodeCalls _ _) as [encodedCalls|e]; [|discriminate].
    destruct (capability client parameters w) as [[[|]|e] w1]; simpl;
      try discriminate.
    destruct (encodeFunctionData _ _ _) as [data|e] eqn:Hdata.
    + cbv zeta.
      destruct (sendTransaction client _) as [h|e] eqn:Hsend.
      * intros [= ->]. now exists encodedCalls, data.
      * destruct (execute_catch _ _ _). discriminate.
    + destruct (execute_catch _ _ _). discriminate.
  - intros (encodedCalls & data & -> & Hcap & Hdata & Hsend).
    destruct (capability client parameters w) as [r w1]. simpl in Hcap.
    subst r. rewrite Hdata. cbv zeta. now rewrite Hsend.
Qed.

(** X6. The unsupported-mode error is raised exactly when the batch is
    encoded and the capability check answers [false]; in particular it is
    never raised once something was submitted. *)
Theorem execute_unsupported_iff `{Collaborators}
    (client : Client) (parameters : ExecuteParameters) (w : World) :
  fst (execute client parameters w) = Throw ExecuteUnsupportedError
  <-> (exists encodedCalls,
          encodeCalls (calls parameters) (opData parameters) = Ok encodedCalls)
      /\ fst (capability client parameters w) = Ok false.
Proof.
  rewrite execute_unfold. split.
  - destruct (encodeCalls _ _) as [encodedCalls|e]; [|discriminate].
    destruct (capability client parameters w) as [[[|]|e] w1]; simpl;
      try discriminate; [|eauto].
    destruct (encodeFunctionData _ _ _) as [data|e].
    + cbv zeta. destruct (sendTransaction client _) as [h|e]; [discriminate|].
      pose proof (execute_catch_not_unsupported parameters e
                    (log (Submit {| tx_parameters := parameters;
                                    tx_to := address parameters;
                                    tx_data := data |}) w1)) as Hnot.
      destruct (execute_catch _ _ _) as [t w2]. simpl in *. congruence.
    + pose proof (execute_catch_not_unsupported parameters e w1) as Hnot.
      destruct (execute_catch _ _ _) as [t w2]. simpl in *. congruence.
  - intros [(encodedCalls & ->) Hcap].
    destruct (capability client parameters w) as [r w1]. simpl in Hcap.
    now subst r.
Qed.

(** X7. The call data of the transaction is encoded inside the [try] block:
    when that encoding throws, nothing is submitted and the error goes
    through the resolver, whose verdict [execute] raises. *)
Theorem execute_call_data_failure `{Collaborators}
    (client : Client) (parameters : ExecuteParameters) (w : World)
    (encodedCalls : Hex) (e : BaseError) :
  encodeCalls (calls parameters) (opData parameters) = Ok encodedCalls ->
  fst (capability client parameters w) = Ok true ->
  encodeFunctionData abi (Some "execute")
    (Some [JsString (execute_mode (opData parameters)); JsString encodedCalls])
  = Throw e ->
  fst (execute client parameters w)
  = Throw (fst (execute_catch parameters e
                  (snd (capability client parameters w))))
  /\ Forall (fun ev => is_Submit ev = false)
       (new_events w (snd (execute client parameters w))).
Proof.
  intros Henc Hcap Hdata.
  destruct (capability_events client parameters w) as (ps & Hps & Hshape).
  rewrite execute_unfold, Henc.
  destruct (capability client parameters w) as [r w1]. simpl in Hcap, Hps.
  subst r. rewrite Hdata. simpl.
  destruct (execute_catch_events parameters e w1) as (ds & Hds & Hdec & _).
  destruct (execute_catch parameters e w1) as [t w2]. simpl in *.
  split; [reflexivity|].
  rewrite (new_events_app w w2 (ps ++ ds))
    by now rewrite Hds, Hps, <- app_assoc.
  apply Forall_app. split.
  - destruct Hshape as [-> | ->]; repeat constructor.
  - eapply Forall_impl; [exact Hdec|]. now intros [| |].
Qed.

Lemma execute_call_data_failure_witness :
  let C := Fixture2.collaborators_without_execute (Ok true) (Ok "0x01") in
  let p := Fixture.parameters None [Fixture.transfer_a] None in
  fst (execute Fixture.client p Fixture.empty_world)
  = Throw (Original (Fixture.not_found "AbiFunctionNotFoundError"))
  /\ Forall (fun ev => is_Submit ev = false)
       (new_events Fixture.empty_world
          (snd (execute Fixture.client p Fixture.empty_world))).
Proof.
  intros C p.
  apply (@execute_call_data_failure C Fixture.client p Fixture.empty_world
           "0x100000000000000000000000000000000000000aa0a9059cbb70997970c51812dc3a010c7d01b50e0d17dc79c8"
           (Fixture.not_found "AbiFunctionNotFoundError")).
  - vm_compute. reflexivity.
  - vm_compute. reflexivity.
  - vm_compute. reflexivity.
Defined.

(** X13. A failure of the capability query leaves [execute] as it is: on a
    cache miss, once the batch is encoded, an error thrown by
    [supportsExecutionMode] is the error [execute] raises; the query is the
    only step made, nothing is submitted and the cache is left as it was. *)
Theorem execute_probe_failure `{Collaborators}
    (client : Client) (parameters : ExecuteParameters) (w : World)
    (encodedCalls : Hex) (e : BaseError) :
  encodeCalls (calls parameters) (opData parameters) = Ok encodedCalls ->
  cache w !! cacheKey client (effective_address parameters)
               (execute_mode (opData parameters)) = None ->
  supportsExecutionMode client (effective_address parameters)
    (execute_mode (opData parameters)) = Throw e ->
  execute client parameters w
  = (Throw (Original e),
     {| cache := cache w;
        events := events w
                  ++ [Probe (effective_address parameters)
                        (execute_mode (opData parameters))] |}).
Proof.
  intros Henc Hmiss Hprobe.
  rewrite execute_unfold, Henc, (capability_miss _ _ _ Hmiss), Hprobe.
  reflexivity.
Qed.

Lemma execute_probe_failure_witness :
  let C := Fixture.collaborators
             (Throw (Fixture.not_found "HttpRequestError")) (Ok "0x01") in
  execute Fixture.client (Fixture.parameters None [Fixture.transfer_a] None)
    Fixture.empty_world
  = (Throw (Original (Fixture.not_found "HttpRequestError")),
     {| cache := ∅;
        events := [Probe Fixture.eoa executionMode_default] |}).
Proof.
  intros C.
  apply (@execute_probe_failure C Fixture.client
           (Fixture.parameters None [Fixture.transfer_a] None)
           Fixture.empty_world
           "0x100000000000000000000000000000000000000aa0a9059cbb70997970c51812dc3a010c7d01b50e0d17dc79c8").
  - vm_compute. reflexivity.
  - reflexivity.
  - reflexivity.
Defined.

(** ** The capability cache *)

Lemma string_app_assoc (s1 s2 s3 : string) :
  (s1 +:+ s2) +:+ s3 = s1 +:+ (s2 +:+ s3).
Proof.
  induction s1 as [|c s1 IH]; [reflexivity|].
  change (String c ((s1 +:+ s2) +:+ s3) = String c (s1 +:+ (s2 +:+ s3))).
  now rewrite IH.
Qed.

Lemma dot_free_app_dot (s t : string) : dot_free (s +:+ "." +:+ t) = false.
Proof.
  induction s as [|c s IH]; [reflexivity|].
  change (negb (Ascii.eqb c ".") && dot_free (s +:+ "." +:+ t) = false).
  rewrite IH. apply andb_false_r.
Qed.

(** A string is split in one way only at its last ["."]. *)
Lemma app_dot_inj (s1 s2 t1 t2 : string) :
  dot_free t1 = true -> dot_free t2 = true ->
  s1 +:+ "." +:+ t1 = s2 +:+ "." +:+ t2 ->
  s1 = s2 /\ t1 = t2.
Proof.
  intros Ht1 Ht2. revert s2.
  induction s1 as [|c s1 IH]; intros [|c' s2] Heq.
  - change (String "." t1 = String "." t2) in Heq. injection Heq as ->. auto.
  - change (String "." t1 = String c' (s2 +:+ "." +:+ t2)) in Heq.
    injection Heq as _ ->. now rewrite dot_free_app_dot in Ht1.
  - change (String c (s1 +:+ "." +:+ t1) = String "." t2) in Heq.
    injection Heq as _ <-. now rewrite dot_free_app_dot in Ht2.
  - change (String c (s1 +:+ "." +:+ t1) = String c' (s2 +:+ "." +:+ t2))
      in Heq.
    injection Heq as -> Heq. apply IH in Heq as [-> ->]. auto.
Qed.

(** With a cached answer, a run logs no probe. *)
Lemma execute_hit_events `{Collaborators} client parameters w v :
  cache w !! cacheKey client (effective_address parameters)
               (execute_mode (opData parameters)) = Some v ->
  exists rest,
    events (snd (execute client parameters w)) = events w ++ rest
    /\ Forall (fun ev => is_Probe ev = false) rest.
Proof.
  intros Hhit. rewrite execute_unfold, (capability_hit _ _ _ _ Hhit).
  destruct (encodeCalls _ _) as [encodedCalls|e].
  2:{ exists []. simpl. rewrite app_nil_r. auto. }
  destruct v.
  - destruct (encodeFunctionData _ _ _) as [data|e].
    + cbv zeta.
      set (request := {| tx_parameters := parameters;
                         tx_to := address parameters; tx_data := data |}).
      destruct (sendTransaction client request) as [hash|e].
      * exists [Submit request]. simpl. split; [reflexivity|].
        repeat constructor.
      * destruct (execute_catch_events parameters e (log (Submit request) w))
          as (ds & Hds & Hdec & _).
        destruct (execute_catch parameters e (log (Submit request) w))
          as [t w2]. unfold log in Hds. simpl in *.
        exists ([Submit request] ++ ds). rewrite Hds, <- app_assoc.
        split; [reflexivity|]. constructor; [reflexivity|].
        eapply Forall_impl; [exact Hdec|]. now intros [| |].
    + destruct (execute_catch_events parameters e w) as (ds & Hds & Hdec & _).
      destruct (execute_catch parameters e w) as [t w2]. simpl in *.
      exists ds. split; [assumption|].
      eapply Forall_impl; [exact Hdec|]. now intros [| |].
  - exists []. simpl. rewrite app_nil_r. auto.
Qed.

(** X11. The cache key names one client, one address and one mode: two keys
    are equal only if the client identifiers, the addresses and the modes
    are, as long as addresses and modes hold no ["."] (they are hex
    strings); the identifier may hold any character. *)
Theorem cacheKey_injective `{Collaborators}
    (client1 client2 : Client) (address1 address2 : Address)
    (mode1 mode2 : Hex) :
  dot_free address1 = true -> dot_free address2 = true ->
  dot_free mode1 = true -> dot_free mode2 = true ->
  cacheKey client1 address1 mode1 = cacheKey client2 address2 mode2 ->
  uid client1 = uid client2 /\ address1 = address2 /\ mode1 = mode2.
Proof.
  intros Ha1 Ha2 Hm1 Hm2 Hkey. unfold cacheKey in Hkey.
  apply (inj (String.app _)) in Hkey.
  assert ((uid client1 +:+ "." +:+ address1) +:+ "." +:+ mode1
          = (uid client2 +:+ "." +:+ address2) +:+ "." +:+ mode2) as Hkey'.
  { rewrite !string_app_assoc. simpl. exact Hkey. }
  apply app_dot_inj in Hkey' as [Hkey' ->]; [|assumption..].
  apply app_dot_inj in Hkey' as [-> ->]; auto.
Qed.

Lemma cacheKey_injective_witness :
  let C := Fixture.collaborators (Ok true) (Ok "0x01") in
  uid {| uid := "client.1" |} = uid {| uid := "client.1" |}
  /\ Fixture.eoa = Fixture.eoa
  /\ executionMode_opData = executionMode_opData.
Proof.
  intros C.
  apply (@cacheKey_injective C {| uid := "client.1" |} {| uid := "client.1" |}
           Fixture.eoa Fixture.eoa executionMode_opData executionMode_opData);
    reflexivity.
Defined.

(** Once the batch is encoded, [execute] leaves the cache as the capability
    check left it. *)
Lemma execute_cache_encoded `{Collaborators} client parameters w encodedCalls :
  encodeCalls (calls parameters) (opData parameters) = Ok encodedCalls ->
  cache (snd (execute client parameters w))
  = cache (snd (capability client parameters w)).
Proof.
  intros Henc. rewrite execute_unfold, Henc.
  destruct (capability client parameters w) as [[[|]|e] w1]; simpl;
    try reflexivity.
  destruct (encodeFunctionData _ _ _) as [data|e].
  - cbv zeta.
    set (request := {| tx_parameters := parameters;
                       tx_to := address parameters; tx_data := data |}).
    destruct (sendTransaction client request) as [hash|e]; [reflexivity|].
    destruct (execute_catch_events parameters e (log (Submit request) w1))
      as (_ & _ & _ & Hcache).
    now destruct (execute_catch parameters e (log (Submit request) w1)).
  - destruct (execute_catch_events parameters e w1) as (_ & _ & _ & Hcache).
    now destruct (execute_catch parameters e w1).
Qed.

(** X14. The remote's answer is asked for once: after a run that encoded its
    batch and got an answer from [supportsExecutionMode] on a cache miss,
    whatever came of the submission, a later run by the same client for the
    same effective address and the same mode, with any calls, uses that
    answer and makes no remote capability query. *)
Theorem execute_memoizes `{Collaborators}
    (client : Client) (parameters1 parameters2 : ExecuteParameters)
    (w : World) (encodedCalls : Hex) (v : bool) :
  encodeCalls (calls parameters1) (opData parameters1) = Ok encodedCalls ->
  cache w !! cacheKey client (effective_address parameters1)
               (execute_mode (opData parameters1)) = None ->
  supportsExecutionMode client (effective_address parameters1)
    (execute_mode (opData parameters1)) = Ok v ->
  effective_address parameters2 = effective_address parameters1 ->
  execute_mode (opData parameters2) = execute_mode (opData parameters1) ->
  let w1 := snd (execute client parameters1 w) in
  fst (capability client parameters2 w1) = Ok v
  /\ Forall (fun ev => is_Probe ev = false)
       (new_events w1 (snd (execute client parameters2 w1))).
Proof.
  intros Henc Hmiss Hprobe Haddress Hmode w1.
  assert (cache w1 !! cacheKey client (effective_address parameters2)
                        (execute_mode (opData parameters2)) = Some v) as Hhit.
  { unfold w1. rewrite (execute_cache_encoded _ _ _ _ Henc).
    rewrite (capability_miss _ _ _ Hmiss), Hprobe, Haddress, Hmode. simpl.
    apply lookup_insert_eq. }
  split.
  - now rewrite (capability_hit client parameters2 w1 v Hhit).
  - destruct (execute_hit_events client parameters2 w1 v Hhit)
      as (rest & Hev & Hrest).
    now rewrite (new_events_app _ _ _ Hev).
Qed.

Lemma execute_memoizes_witness :
  let C := Fixture.collaborators (Ok true)
             (Throw (Fixture.revert_with "0xf4d678b8")) in
  let w1 := snd (execute Fixture.client
                   (Fixture.parameters None [Fixture.transfer_a] None)
                   Fixture.empty_world) in
  fst (capability Fixture.client
         (Fixture.parameters None [Fixture.transfer_b; Fixture.transfer_a]
            (Some ""))
         w1) = Ok true
  /\ Forall (fun ev => is_Probe ev = false)
       (new_events w1
          (snd (execute Fixture.client
                  (Fixture.parameters None
                     [Fixture.transfer_b; Fixture.transfer_a] (Some ""))
                  w1))).
Proof.
  intros C.
  apply (@execute_memoizes C Fixture.client
           (Fixture.parameters None [Fixture.transfer_a] None)
           (Fixture.parameters None [Fixture.transfer_b; Fixture.transfer_a]
              (Some ""))
           Fixture.empty_world
           "0x100000000000000000000000000000000000000aa0a9059cbb70997970c51812dc3a010c7d01b50e0d17dc79c8"
           true).
  - vm_compute. reflexivity.
  - reflexivity.
  - reflexivity.
  - reflexivity.
  - reflexivity.
Defined.
